(** * Cross-layer video transmission simulator: [simulate_cross_layer]

    A shallow embedding of [simulate_cross_layer] of [src/app.py] and the
    properties its specification states about it.

    Numbers.  Python floats and numpy [float64] scalars are modelled as exact
    real numbers ([R]): rounding, overflow and underflow of binary64 are not
    part of the model.  What the model does keep of the arithmetic is where
    it stops being a real number:
    - a division of Python floats by zero raises [ZeroDivisionError];
    - a numpy division by zero, or a numpy logarithm or square root outside
      its domain, yields [inf] or [nan] (with a RuntimeWarning);
    - [int] of [inf] raises [OverflowError], [int] of [nan] raises
      [ValueError].

    Binary64.  Two events of lines 27 and 28 change what the function does
    rather than the last bit of a value, and a second embedding,
    [simulate_cross_layer_binary64], keeps them: [10 ** (snr_db / 10)] raises
    [OverflowError] once the power exceeds the largest float, and
    [1 + snr_lin] is [1.0] once [snr_lin] is at most [2 ^ -53], which makes
    the capacity [0.0].  The two embeddings are the same function for
    [snr_db] between -150 and 3000.

    Scope.  Only the function is modelled.  The Streamlit controls that call
    it pass integers ([bw] in 1..20, [snr_db] in 0..30, [pkt_size] in 1..10,
    [bitrate] in 1..20, [total_frames] in 10..200); the function itself
    checks none of its arguments, and the model takes any real arguments and
    any integer frame count.

    Randomness.  The ambient generator of the [random] module is modelled as
    an infinite sequence of draws of [random.random()], read from a position
    that the loop state carries; [random.uniform a b] is
    [a + (b - a) * random.random()], as in the Python library. *)

From Stdlib Require Import Reals Lra Lia ZArith List.
Import ListNotations.

Open Scope R_scope.

(** ** Outcomes of a Python computation *)

(** The built-in exceptions the function can raise. *)
Inductive exn : Type :=
| ZeroDivisionError
| OverflowError
| ValueError.

(** [Ok a]: the computation went through with value [a].
    [Raise e]: Python raised [e]; nothing is returned.
    [NonFinite]: a numpy operation produced [inf] or [nan].  Python carries
    on with that value; the model, whose numbers are reals, does not follow
    the run any further. *)
Inductive outcome (A : Type) : Type :=
| Ok (a : A)
| Raise (e : exn)
| NonFinite.

Arguments Ok {A} a.
Arguments Raise {A} e.
Arguments NonFinite {A}.

Definition bind {A B : Type} (m : outcome A) (k : A -> outcome B) : outcome B :=
  match m with
  | Ok a => k a
  | Raise e => Raise e
  | NonFinite => NonFinite
  end.

Notation "x <- m ;; k" := (bind m (fun x => k))
  (at level 61, m at next level, right associativity).

(** ** Python and numpy primitives *)

(** The result of a numpy scalar operation: a real, an infinity or a nan. *)
Inductive np_float : Type :=
| Fin (r : R)
| Inf
| NaN.

(** [a / b] when one operand is a numpy [float64]: no exception, the
    quotient by zero is [nan] for [0 / 0] and an infinity otherwise. *)
Definition np_div (a b : R) : np_float :=
  if Req_dec_T b 0 then (if Req_dec_T a 0 then NaN else Inf) else Fin (a / b).

(** [a / b] on Python floats and ints. *)
Definition py_div (a b : R) : outcome R :=
  if Req_dec_T b 0 then Raise ZeroDivisionError else Ok (a / b).

(** A numpy value used where the model needs a real. *)
Definition finite (x : np_float) : outcome R :=
  match x with
  | Fin r => Ok r
  | Inf | NaN => NonFinite
  end.

(** Truncation toward zero. *)
Definition Ztrunc (x : R) : Z :=
  if Rlt_dec x 0 then Zceil x else Zfloor x.

(** The built-in [int] applied to a float. *)
Definition py_int (x : np_float) : outcome Z :=
  match x with
  | Fin r => Ok (Ztrunc r)
  | Inf => Raise OverflowError
  | NaN => Raise ValueError
  end.

(** The built-ins [min(a, b)] and [max(a, b)]: the first argument wins
    unless the second is strictly smaller (resp. larger). *)
Definition py_min (a b : R) : R := if Rlt_dec b a then b else a.
Definition py_max (a b : R) : R := if Rlt_dec a b then b else a.

(** [np.log2], [np.log10] and [np.sqrt]. *)
Definition np_log2 (x : R) : outcome R :=
  if Rlt_dec 0 x then Ok (ln x / ln 2) else NonFinite.

Definition np_log10 (x : R) : outcome R :=
  if Rlt_dec 0 x then Ok (ln x / ln 10) else NonFinite.

Definition np_sqrt (x : R) : outcome R :=
  if Rle_dec 0 x then Ok (sqrt x) else NonFinite.

(** [range(n)]. *)
Definition range (n : Z) : list Z := map Z.of_nat (seq 0 (Z.to_nat n)).

(** ** The random source *)

(** The successive values of [random.random()]. *)
Definition random_source : Type := nat -> R.

(** [random.uniform(a, b)], given the draw of [random.random()] it uses. *)
Definition random_uniform (a b : R) (draw : R) : R := a + (b - a) * draw.

(** ** The result dictionary and the loop state *)

(** The dictionary [results]: one list per key. *)
Record results : Type := mk_results {
  res_time : list Z;
  res_bitrate : list R;
  res_psnr : list R;
  res_delay : list R;
  res_energy : list R;
  res_throughput : list R
}.

Definition empty_results : results := mk_results [] [] [] [] [] [].

(** The six [append] calls that end an iteration. *)
Definition append_frame (rs : results)
    (t : Z) (bitrate psnr delay energy throughput : R) : results :=
  mk_results (res_time rs ++ [t])
             (res_bitrate rs ++ [bitrate])
             (res_psnr rs ++ [psnr])
             (res_delay rs ++ [delay])
             (res_energy rs ++ [energy])
             (res_throughput rs ++ [throughput]).

(** What an iteration reads and updates: the queue accumulator, the
    dictionary, and the position in the random source. *)
Record loop_state : Type := mk_state {
  queue_length : R;
  st_results : results;
  rng_pos : nat
}.

Definition initial_state : loop_state := mk_state 0 empty_results 0.

(** ** The quantities of one frame *)

(** [capacity_t = capacity * random.uniform(0.8, 1.2)]. *)
Definition capacity_t_of (capacity draw : R) : R :=
  capacity * random_uniform 0.8 1.2 draw.

(** [adaptive_bitrate = min(bitrate * 1e6, capacity_t * 0.9)]. *)
Definition adaptive_bitrate_of (bitrate capacity_t : R) : R :=
  py_min (bitrate * 1e6) (capacity_t * 0.9).

(** [min] returns its second argument, a numpy scalar, exactly when it is
    strictly smaller; otherwise the adaptive bitrate is the Python float
    [bitrate * 1e6], and so is everything computed from it alone. *)
Definition adaptive_is_numpy (bitrate capacity_t : R) : bool :=
  if Rlt_dec (capacity_t * 0.9) (bitrate * 1e6) then true else false.

(** [cwnd = min(10, max(1, int(capacity_t / (pkt_size * 1024 * 8))))]. *)
Definition cwnd_of (capacity_t pkt_size : R) : outcome Z :=
  n <- py_int (np_div capacity_t (pkt_size * 1024 * 8)) ;;
  Ok (Z.min 10 (Z.max 1 n)).

Definition routing_eff : R := 0.95.

(** [link_eff = 1.0 if random.random() > 0.1 else 0.9]. *)
Definition link_eff_of (draw : R) : R :=
  if Rlt_dec 0.1 draw then 1.0 else 0.9.

(** [throughput = adaptive_bitrate * routing_eff], then
    [throughput *= link_eff]. *)
Definition throughput_of (adaptive_bitrate draw : R) : R :=
  adaptive_bitrate * routing_eff * link_eff_of draw.

(** The increment of [queue_length += max(0, adaptive_bitrate - capacity_t)]. *)
Definition queue_increment (adaptive_bitrate capacity_t : R) : R :=
  py_max 0 (adaptive_bitrate - capacity_t).

(** A division whose left operand has the type of the adaptive bitrate. *)
Definition div_as (is_numpy : bool) (a b : R) : outcome R :=
  if is_numpy then finite (np_div a b) else py_div a b.

(** [mse = max(1, 255**2 / (throughput / (bitrate * 1e6) + 0.1))]. *)
Definition mse_of (is_numpy : bool) (throughput bitrate : R) : outcome R :=
  ratio <- div_as is_numpy throughput (bitrate * 1e6) ;;
  quotient <- div_as is_numpy (255 ^ 2) (ratio + 0.1) ;;
  Ok (py_max 1 quotient).

(** [psnr = 20 * np.log10(255 / np.sqrt(mse))]. *)
Definition psnr_of (mse : R) : outcome R :=
  root <- np_sqrt mse ;;
  arg <- finite (np_div 255 root) ;;
  l <- np_log10 arg ;;
  Ok (20 * l).

(** ** The loop body *)

(** One iteration of [for t in range(total_frames)], lines 35 to 68.  The
    [time.sleep(0.01)] that ends the iteration changes no value. *)
Definition frame (rng : random_source)
    (pkt_size bitrate capacity power_tx : R)
    (t : Z) (st : loop_state) : outcome loop_state :=
  let capacity_t := capacity_t_of capacity (rng (rng_pos st)) in
  let adaptive_bitrate := adaptive_bitrate_of bitrate capacity_t in
  cwnd <- cwnd_of capacity_t pkt_size ;;
  let link_draw := rng (S (rng_pos st)) in
  let throughput := throughput_of adaptive_bitrate link_draw in
  let queue_length' :=
    queue_length st + queue_increment adaptive_bitrate capacity_t in
  delay <- finite (np_div queue_length' (capacity_t + 1e-9)) ;;
  per_bit <- finite (np_div (pkt_size * 8) capacity_t) ;;
  let energy := power_tx * per_bit in
  mse <- mse_of (adaptive_is_numpy bitrate capacity_t) throughput bitrate ;;
  psnr <- psnr_of mse ;;
  Ok (mk_state queue_length'
        (append_frame (st_results st) t
           (adaptive_bitrate / 1e6) psnr delay energy (throughput / 1e6))
        (S (S (rng_pos st)))).

(** The [for] loop over a list of frame numbers. *)
Fixpoint for_each (body : Z -> loop_state -> outcome loop_state)
    (ts : list Z) (st : loop_state) : outcome loop_state :=
  match ts with
  | [] => Ok st
  | t :: ts' => st' <- body t st ;; for_each body ts' st'
  end.

(** ** The simulation *)

(** [snr_lin = 10 ** (snr_db / 10)] and
    [capacity = bw * 1e6 * np.log2(1 + snr_lin)]. *)
Definition shannon_capacity (bw snr_db : R) : outcome R :=
  let snr_lin := Rpower 10 (snr_db / 10) in
  l <- np_log2 (1 + snr_lin) ;;
  Ok (bw * 1e6 * l).

Definition power_tx : R := 0.1.

(** The loop state after the frames of [ts], from the state the function
    sets up before its loop. *)
Definition run_frames (rng : random_source)
    (bw snr_db pkt_size bitrate : R) (ts : list Z) : outcome loop_state :=
  capacity <- shannon_capacity bw snr_db ;;
  for_each (frame rng pkt_size bitrate capacity power_tx) ts initial_state.

(** [simulate_cross_layer(bw, snr_db, pkt_size, bitrate, total_frames)]. *)
Definition simulate_cross_layer (rng : random_source)
    (bw snr_db pkt_size bitrate : R) (total_frames : Z) : outcome results :=
  st <- run_frames rng bw snr_db pkt_size bitrate (range total_frames) ;;
  Ok (st_results st).

(** The same function without line 40, the computation of [cwnd]. *)
Definition frame_no_cwnd (rng : random_source)
    (pkt_size bitrate capacity power_tx : R)
    (t : Z) (st : loop_state) : outcome loop_state :=
  let capacity_t := capacity_t_of capacity (rng (rng_pos st)) in
  let adaptive_bitrate := adaptive_bitrate_of bitrate capacity_t in
  let link_draw := rng (S (rng_pos st)) in
  let throughput := throughput_of adaptive_bitrate link_draw in
  let queue_length' :=
    queue_length st + queue_increment adaptive_bitrate capacity_t in
  delay <- finite (np_div queue_length' (capacity_t + 1e-9)) ;;
  per_bit <- finite (np_div (pkt_size * 8) capacity_t) ;;
  let energy := power_tx * per_bit in
  mse <- mse_of (adaptive_is_numpy bitrate capacity_t) throughput bitrate ;;
  psnr <- psnr_of mse ;;
  Ok (mk_state queue_length'
        (append_frame (st_results st) t
           (adaptive_bitrate / 1e6) psnr delay energy (throughput / 1e6))
        (S (S (rng_pos st)))).

Definition simulate_no_cwnd (rng : random_source)
    (bw snr_db pkt_size bitrate : R) (total_frames : Z) : outcome results :=
  capacity <- shannon_capacity bw snr_db ;;
  st <- for_each (frame_no_cwnd rng pkt_size bitrate capacity power_tx)
          (range total_frames) initial_state ;;
  Ok (st_results st).

(** ** Closed forms

    The values the function computes, as plain real expressions of the
    arguments, the draws and the frame number.  They are related to the
    embedding above by the lemmas of the next part. *)

(** The value of [capacity]. *)
Definition capacity_value (bw snr_db : R) : R :=
  bw * 1e6 * (ln (1 + Rpower 10 (snr_db / 10)) / ln 2).

(** Frame [i] reads draw [2 * i] for the channel and draw [2 * i + 1] for
    the link. *)
Definition capacity_t_at (rng : random_source) (capacity : R) (i : nat) : R :=
  capacity_t_of capacity (rng (2 * i)%nat).

Definition adaptive_at (rng : random_source) (bitrate capacity : R)
    (i : nat) : R :=
  adaptive_bitrate_of bitrate (capacity_t_at rng capacity i).

Definition link_eff_at (rng : random_source) (i : nat) : R :=
  link_eff_of (rng (S (2 * i))).

Definition throughput_at (rng : random_source) (bitrate capacity : R)
    (i : nat) : R :=
  throughput_of (adaptive_at rng bitrate capacity i) (rng (S (2 * i))).

(** [queue_length] after the first [k] frames. *)
Fixpoint queue_after (rng : random_source) (bitrate capacity : R)
    (k : nat) : R :=
  match k with
  | O => 0
  | S k' =>
      queue_after rng bitrate capacity k' +
      queue_increment (adaptive_at rng bitrate capacity k')
                      (capacity_t_at rng capacity k')
  end.

Definition delay_at (rng : random_source) (bitrate capacity : R)
    (i : nat) : R :=
  queue_after rng bitrate capacity (S i) /
  (capacity_t_at rng capacity i + 1e-9).

Definition energy_at (rng : random_source) (pkt_size capacity : R)
    (i : nat) : R :=
  power_tx * (pkt_size * 8 / capacity_t_at rng capacity i).

(** The quotient under the [max] of line 59, and [mse]. *)
Definition mse_quotient (throughput bitrate : R) : R :=
  255 ^ 2 / (throughput / (bitrate * 1e6) + 0.1).

Definition mse_value (throughput bitrate : R) : R :=
  py_max 1 (mse_quotient throughput bitrate).

Definition log10 (x : R) : R := ln x / ln 10.

Definition psnr_value (mse : R) : R := 20 * log10 (255 / sqrt mse).

Definition psnr_at (rng : random_source) (bitrate capacity : R)
    (i : nat) : R :=
  psnr_value (mse_value (throughput_at rng bitrate capacity i) bitrate).

(** The frames of a result, as the closed forms give them. *)
Definition closed_results (rng : random_source)
    (pkt_size bitrate capacity : R) (k : nat) : results :=
  mk_results
    (map Z.of_nat (seq 0 k))
    (map (fun i => adaptive_at rng bitrate capacity i / 1e6) (seq 0 k))
    (map (psnr_at rng bitrate capacity) (seq 0 k))
    (map (delay_at rng bitrate capacity) (seq 0 k))
    (map (energy_at rng pkt_size capacity) (seq 0 k))
    (map (fun i => throughput_at rng bitrate capacity i / 1e6) (seq 0 k)).

(** The loop state after [k] frames, as the closed forms give it. *)
Definition closed_state (rng : random_source)
    (pkt_size bitrate capacity : R) (k : nat) : loop_state :=
  mk_state (queue_after rng bitrate capacity k)
           (closed_results rng pkt_size bitrate capacity k)
           (2 * k).

(** The state an iteration leaves when nothing in it fails. *)
Definition frame_result (rng : random_source)
    (pkt_size bitrate capacity power_tx : R)
    (t : Z) (st : loop_state) : loop_state :=
  let capacity_t := capacity_t_of capacity (rng (rng_pos st)) in
  let adaptive_bitrate := adaptive_bitrate_of bitrate capacity_t in
  let throughput := throughput_of adaptive_bitrate (rng (S (rng_pos st))) in
  let queue_length' :=
    queue_length st + queue_increment adaptive_bitrate capacity_t in
  mk_state queue_length'
    (append_frame (st_results st) t
       (adaptive_bitrate / 1e6)
       (psnr_value (mse_value throughput bitrate))
       (queue_length' / (capacity_t + 1e-9))
       (power_tx * (pkt_size * 8 / capacity_t))
       (throughput / 1e6))
    (S (S (rng_pos st))).

(** The divisors of an iteration, line 40 apart, are not zero. *)
Definition frame_defined (rng : random_source)
    (bitrate capacity : R) (st : loop_state) : Prop :=
  let capacity_t := capacity_t_of capacity (rng (rng_pos st)) in
  let adaptive_bitrate := adaptive_bitrate_of bitrate capacity_t in
  let throughput := throughput_of adaptive_bitrate (rng (S (rng_pos st))) in
  capacity_t + 1e-9 <> 0 /\
  capacity_t <> 0 /\
  bitrate * 1e6 <> 0 /\
  throughput / (bitrate * 1e6) + 0.1 <> 0.

(** ** Assumptions on the input *)

(** Every draw of [random.random()] lies in [[0, 1)]. *)
Definition draws_in_unit (rng : random_source) : Prop :=
  forall i : nat, 0 <= rng i < 1.

(** The preconditions the specification puts on a configuration. *)
Definition valid_config (bw pkt_size bitrate : R) (total_frames : Z) : Prop :=
  0 < bw /\ 0 < pkt_size /\ 0 < bitrate /\ (0 < total_frames)%Z.

(** A random source whose every draw is [x]. *)
Definition constant_draws (x : R) : random_source := fun _ => x.

(** ** The script around the function

    Lines 15 to 21 read the five sliders; when the button of line 77 is
    pressed, line 79 calls the function on their values and lines 108 to 113
    show the mean of four of the series.  The plots of lines 86 to 103 and
    the formatting of the means as text are not modelled. *)

(** The values of the five sliders. *)
Record controls : Type := mk_controls {
  bandwidth : Z;
  snr : Z;
  packet_size : Z;
  video_bitrate : Z;
  frames : Z
}.

(** [st.slider(label, lo, hi, default)] with integer bounds returns an
    integer between [lo] and [hi]. *)
Definition slider_range (lo hi v : Z) : Prop := (lo <= v <= hi)%Z.

(** The bounds the script gives its sliders. *)
Definition slider_values (c : controls) : Prop :=
  slider_range 1 20 (bandwidth c) /\
  slider_range 0 30 (snr c) /\
  slider_range 1 10 (packet_size c) /\
  slider_range 1 20 (video_bitrate c) /\
  slider_range 10 200 (frames c).

(** [np.mean] of a list: the sum over the length, [nan] on the empty list. *)
Definition np_sum (l : list R) : R := fold_right Rplus 0 l.

Definition np_mean (l : list R) : outcome R :=
  finite (np_div (np_sum l) (INR (length l))).

(** The four numbers of the summary, lines 110 to 113. *)
Record summary : Type := mk_summary {
  avg_bitrate : R;
  avg_psnr : R;
  avg_delay : R;
  avg_energy : R
}.

Definition simulation_summary (res : results) : outcome summary :=
  b <- np_mean (res_bitrate res) ;;
  p <- np_mean (res_psnr res) ;;
  d <- np_mean (res_delay res) ;;
  e <- np_mean (res_energy res) ;;
  Ok (mk_summary b p d e).

(** What pressing the button computes: the result of line 79 and its
    summary. *)
Definition run_simulation (rng : random_source) (c : controls)
    : outcome (results * summary) :=
  res <- simulate_cross_layer rng
           (IZR (bandwidth c)) (IZR (snr c)) (IZR (packet_size c))
           (IZR (video_bitrate c)) (frames c) ;;
  s <- simulation_summary res ;;
  Ok (res, s).

(** ** Lines 27 and 28 in binary64 *)

(** The least real that rounds to an infinity, half an ulp above the
    largest binary64 number [2 ^ 1024 - 2 ^ 971]. *)
Definition binary64_overflow : R := 2 ^ 1024 - 2 ^ 970.

(** Half the gap between [1.0] and the next binary64 number: [1 + x] rounds
    to [1.0] for every [x] from [0] to this bound, the bound included (the
    tie goes to the even significand). *)
Definition binary64_half_epsilon : R := / 2 ^ 53.

(** [10 ** y] on a Python float [y]: [OverflowError] when the power is out
    of range. *)
Definition py_pow10 (y : R) : outcome R :=
  if Rle_dec binary64_overflow (Rpower 10 y)
  then Raise OverflowError
  else Ok (Rpower 10 y).

(** [1 + x] in binary64, for [x >= 0]: a small [x] is absorbed. *)
Definition binary64_one_plus (x : R) : R :=
  if Rle_dec x binary64_half_epsilon then 1 else 1 + x.

(** Lines 27 and 28 with these two events. *)
Definition shannon_capacity_binary64 (bw snr_db : R) : outcome R :=
  snr_lin <- py_pow10 (snr_db / 10) ;;
  l <- np_log2 (binary64_one_plus snr_lin) ;;
  Ok (bw * 1e6 * l).

(** The function on that capacity; the loop is the same. *)
Definition simulate_cross_layer_binary64 (rng : random_source)
    (bw snr_db pkt_size bitrate : R) (total_frames : Z) : outcome results :=
  capacity <- shannon_capacity_binary64 bw snr_db ;;
  st <- for_each (frame rng pkt_size bitrate capacity power_tx)
          (range total_frames) initial_state ;;
  Ok (st_results st).

(** Arguments on which binary64 stays clear of overflow and of absorption:
    an SNR for which line 27 gives a power between [1e-15] and [1e300], and a
    bandwidth and a packet size whose products and quotients in lines 28 to
    56 stay within the range of binary64. *)
Definition binary64_range (bw snr_db pkt_size : R) : Prop :=
  -150 <= snr_db <= 3000 /\
  1e-100 <= bw <= 1e100 /\
  1e-100 <= pkt_size <= 1e100.

(** * Properties *)

(** ** Outcomes *)

Lemma bind_ok_inv {A B : Type} (m : outcome A) (k : A -> outcome B) (b : B) :
  bind m k = Ok b -> exists a, m = Ok a /\ k a = Ok b.
Proof.
  destruct m as [a | e | ]; simpl; intros H; try discriminate.
  exists a; split; [reflexivity | exact H].
Qed.

(** ** [min], [max] and the arithmetic primitives *)

Lemma py_min_Rmin (a b : R) : py_min a b = Rmin a b.
Proof.
  unfold py_min, Rmin.
  destruct (Rlt_dec b a), (Rle_dec a b); lra.
Qed.

Lemma py_max_Rmax (a b : R) : py_max a b = Rmax a b.
Proof.
  unfold py_max, Rmax.
  destruct (Rlt_dec a b), (Rle_dec a b); lra.
Qed.

Lemma py_min_le_l (a b : R) : py_min a b <= a.
Proof. unfold py_min; destruct (Rlt_dec b a); lra. Qed.

Lemma py_min_le_r (a b : R) : py_min a b <= b.
Proof. unfold py_min; destruct (Rlt_dec b a); lra. Qed.

Lemma py_min_pos (a b : R) : 0 < a -> 0 < b -> 0 < py_min a b.
Proof. unfold py_min; destruct (Rlt_dec b a); lra. Qed.

Lemma py_max_ge_l (a b : R) : a <= py_max a b.
Proof. unfold py_max; destruct (Rlt_dec a b); lra. Qed.

Lemma py_max_left (a b : R) : b <= a -> py_max a b = a.
Proof. unfold py_max; destruct (Rlt_dec a b); lra. Qed.

Lemma py_max_right (a b : R) : a <= b -> py_max a b = b.
Proof. unfold py_max; destruct (Rlt_dec a b); lra. Qed.

Lemma np_div_fin (a b : R) : b <> 0 -> np_div a b = Fin (a / b).
Proof.
  intros Hb. unfold np_div.
  destruct (Req_dec_T b 0); [contradiction | reflexivity].
Qed.

Lemma finite_np_div_inv (a b r : R) :
  finite (np_div a b) = Ok r -> b <> 0 /\ r = a / b.
Proof.
  unfold np_div.
  destruct (Req_dec_T b 0) as [Hb | Hb].
  - destruct (Req_dec_T a 0); discriminate.
  - simpl. intros H. injection H as <-. split; [exact Hb | reflexivity].
Qed.

Lemma div_as_ok (np : bool) (a b : R) : b <> 0 -> div_as np a b = Ok (a / b).
Proof.
  intros Hb. unfold div_as, py_div. rewrite (np_div_fin a b Hb).
  destruct np; simpl; [reflexivity | ].
  destruct (Req_dec_T b 0); [contradiction | reflexivity].
Qed.

Lemma div_as_inv (np : bool) (a b r : R) :
  div_as np a b = Ok r -> b <> 0 /\ r = a / b.
Proof.
  unfold div_as. destruct np.
  - apply finite_np_div_inv.
  - unfold py_div. destruct (Req_dec_T b 0) as [Hb | Hb]; [discriminate | ].
    intros H. injection H as <-. split; [exact Hb | reflexivity].
Qed.

(** [int] truncates toward zero, on either side of it. *)
Example py_int_positive : py_int (np_div 7 2) = Ok 3%Z.
Proof.
  rewrite np_div_fin by lra. simpl. f_equal. unfold Ztrunc.
  destruct (Rlt_dec (7 / 2) 0) as [Hn | _]; [lra | ].
  apply Zfloor_eq. simpl. lra.
Qed.

Example py_int_negative : py_int (np_div (-7) 2) = Ok (-3)%Z.
Proof.
  rewrite np_div_fin by lra. simpl. f_equal. unfold Ztrunc.
  destruct (Rlt_dec (-7 / 2) 0) as [_ | Hn]; [ | lra].
  unfold Zceil. replace (- (-7 / 2)) with (7 / 2) by lra.
  rewrite (Zfloor_eq 3) by (simpl; lra). reflexivity.
Qed.

Example py_int_of_inf : py_int (np_div 7 0) = Raise OverflowError.
Proof.
  unfold np_div.
  destruct (Req_dec_T 0 0) as [_ | Hn]; [ | contradiction].
  destruct (Req_dec_T 7 0) as [H7 | _]; [lra | reflexivity].
Qed.

(** ** [range] and the [for] loop *)

Lemma range_length (n : Z) : length (range n) = Z.to_nat n.
Proof. unfold range. rewrite length_map, length_seq. reflexivity. Qed.

Lemma range_nonpos (n : Z) : (n <= 0)%Z -> range n = [].
Proof.
  intros Hn. unfold range.
  replace (Z.to_nat n) with 0%nat by lia. reflexivity.
Qed.

Lemma range_of_nat (k : nat) : range (Z.of_nat k) = map Z.of_nat (seq 0 k).
Proof. unfold range. rewrite Nat2Z.id. reflexivity. Qed.

Lemma range_succ (k : nat) :
  range (Z.of_nat (S k)) = range (Z.of_nat k) ++ [Z.of_nat k].
Proof.
  rewrite !range_of_nat, seq_S, map_app. reflexivity.
Qed.

Lemma range_to_nat (n : Z) : range n = range (Z.of_nat (Z.to_nat n)).
Proof. unfold range. rewrite Nat2Z.id. reflexivity. Qed.

Lemma for_each_app (body : Z -> loop_state -> outcome loop_state)
    (l1 l2 : list Z) (st : loop_state) :
  for_each body (l1 ++ l2) st =
  (st' <- for_each body l1 st ;; for_each body l2 st').
Proof.
  revert st. induction l1 as [| t l1 IH]; intros st; simpl.
  - reflexivity.
  - destruct (body t st) as [st1 | e | ]; simpl; [apply IH | reflexivity ..].
Qed.

Lemma for_each_ext (f g : Z -> loop_state -> outcome loop_state)
    (ts : list Z) (st : loop_state) :
  (forall t s, f t s = g t s) -> for_each f ts st = for_each g ts st.
Proof.
  intros Hfg. revert st. induction ts as [| t ts IH]; intros st; simpl.
  - reflexivity.
  - rewrite Hfg. destruct (g t st); simpl; [apply IH | reflexivity ..].
Qed.

(** ** The channel capacity *)

Lemma ln2_pos : 0 < ln 2.
Proof. rewrite <- ln_1. apply ln_increasing; lra. Qed.

Lemma ln10_pos : 0 < ln 10.
Proof. rewrite <- ln_1. apply ln_increasing; lra. Qed.

Lemma snr_lin_pos (snr_db : R) : 0 < Rpower 10 (snr_db / 10).
Proof. unfold Rpower. apply exp_pos. Qed.

Lemma shannon_capacity_ok (bw snr_db : R) :
  shannon_capacity bw snr_db = Ok (capacity_value bw snr_db).
Proof.
  unfold shannon_capacity, np_log2, capacity_value.
  pose proof (snr_lin_pos snr_db) as Hs.
  destruct (Rlt_dec 0 (1 + Rpower 10 (snr_db / 10))) as [_ | Hn]; [ | lra].
  reflexivity.
Qed.

Lemma capacity_value_pos (bw snr_db : R) :
  0 < bw -> 0 < capacity_value bw snr_db.
Proof.
  intros Hbw. unfold capacity_value.
  pose proof (snr_lin_pos snr_db) as Hs.
  assert (Hl : 0 < ln (1 + Rpower 10 (snr_db / 10))).
  { rewrite <- ln_1. apply ln_increasing; lra. }
  pose proof ln2_pos as H2.
  apply Rmult_lt_0_compat; [lra | ].
  apply Rdiv_lt_0_compat; assumption.
Qed.

(** ** The quality estimate *)

Lemma mse_value_ge_1 (throughput bitrate : R) :
  1 <= mse_value throughput bitrate.
Proof. unfold mse_value. apply py_max_ge_l. Qed.

Lemma mse_of_ok (np : bool) (throughput bitrate : R) :
  bitrate * 1e6 <> 0 ->
  throughput / (bitrate * 1e6) + 0.1 <> 0 ->
  mse_of np throughput bitrate = Ok (mse_value throughput bitrate).
Proof.
  intros Hb Hr. unfold mse_of.
  rewrite (div_as_ok np _ _ Hb). simpl.
  rewrite (div_as_ok np _ _ Hr). reflexivity.
Qed.

Lemma mse_of_inv (np : bool) (throughput bitrate m : R) :
  mse_of np throughput bitrate = Ok m ->
  bitrate * 1e6 <> 0 /\
  throughput / (bitrate * 1e6) + 0.1 <> 0 /\
  m = mse_value throughput bitrate.
Proof.
  unfold mse_of. intros H.
  apply bind_ok_inv in H as (ratio & Hratio & H).
  apply bind_ok_inv in H as (q & Hq & H).
  apply div_as_inv in Hratio as [Hb ->].
  apply div_as_inv in Hq as [Hr ->].
  injection H as <-. repeat split; assumption.
Qed.

Lemma sqrt_ge_1 (m : R) : 1 <= m -> 1 <= sqrt m.
Proof.
  intros Hm. rewrite <- sqrt_1 at 1. apply sqrt_le_1; lra.
Qed.

Lemma psnr_of_ok (m : R) : 1 <= m -> psnr_of m = Ok (psnr_value m).
Proof.
  intros Hm. pose proof (sqrt_ge_1 m Hm) as Hs.
  unfold psnr_of, np_sqrt.
  destruct (Rle_dec 0 m) as [_ | Hn]; [ | lra]. simpl.
  rewrite np_div_fin by lra. simpl.
  unfold np_log10.
  destruct (Rlt_dec 0 (255 / sqrt m)) as [_ | Hn].
  - reflexivity.
  - exfalso. apply Hn. apply Rdiv_lt_0_compat; lra.
Qed.

(** ** One iteration *)

Lemma frame_cwnd (rng : random_source) (pkt_size bitrate capacity ptx : R)
    (t : Z) (st : loop_state) :
  frame rng pkt_size bitrate capacity ptx t st =
  (w <- cwnd_of (capacity_t_of capacity (rng (rng_pos st))) pkt_size ;;
   frame_no_cwnd rng pkt_size bitrate capacity ptx t st).
Proof. reflexivity. Qed.

Lemma cwnd_of_ok (capacity_t pkt_size : R) :
  pkt_size <> 0 ->
  exists w : Z, cwnd_of capacity_t pkt_size = Ok w /\ (1 <= w <= 10)%Z.
Proof.
  intros Hp. unfold cwnd_of.
  rewrite np_div_fin by lra. simpl.
  eexists; split; [reflexivity | lia].
Qed.

Lemma cwnd_of_zero (capacity_t : R) :
  exists e : exn, cwnd_of capacity_t 0 = Raise e.
Proof.
  unfold cwnd_of, np_div.
  destruct (Req_dec_T (0 * 1024 * 8) 0) as [_ | Hn]; [ | exfalso; lra].
  destruct (Req_dec_T capacity_t 0); simpl; eexists; reflexivity.
Qed.

Lemma frame_no_cwnd_ok (rng : random_source)
    (pkt_size bitrate capacity ptx : R) (t : Z) (st : loop_state) :
  frame_defined rng bitrate capacity st ->
  frame_no_cwnd rng pkt_size bitrate capacity ptx t st =
  Ok (frame_result rng pkt_size bitrate capacity ptx t st).
Proof.
  intros (Hd & Hc & Hb & Hr). unfold frame_no_cwnd.
  rewrite np_div_fin by exact Hd. simpl.
  rewrite np_div_fin by exact Hc. simpl.
  rewrite mse_of_ok by assumption. simpl.
  rewrite psnr_of_ok by apply mse_value_ge_1. reflexivity.
Qed.

Lemma frame_no_cwnd_inv (rng : random_source)
    (pkt_size bitrate capacity ptx : R) (t : Z) (st st' : loop_state) :
  frame_no_cwnd rng pkt_size bitrate capacity ptx t st = Ok st' ->
  frame_defined rng bitrate capacity st /\
  st' = frame_result rng pkt_size bitrate capacity ptx t st.
Proof.
  unfold frame_no_cwnd. intros H.
  apply bind_ok_inv in H as (delay & Hdelay & H).
  apply bind_ok_inv in H as (per_bit & Hper & H).
  apply bind_ok_inv in H as (mse & Hmse & H).
  apply bind_ok_inv in H as (psnr & Hpsnr & H).
  apply finite_np_div_inv in Hdelay as [Hd ->].
  apply finite_np_div_inv in Hper as [Hc ->].
  apply mse_of_inv in Hmse as (Hb & Hr & ->).
  rewrite psnr_of_ok in Hpsnr by apply mse_value_ge_1.
  injection Hpsnr as <-. injection H as <-.
  split; [ | reflexivity].
  repeat split; assumption.
Qed.

Lemma frame_ok (rng : random_source)
    (pkt_size bitrate capacity ptx : R) (t : Z) (st : loop_state) :
  pkt_size <> 0 ->
  frame_defined rng bitrate capacity st ->
  frame rng pkt_size bitrate capacity ptx t st =
  Ok (frame_result rng pkt_size bitrate capacity ptx t st).
Proof.
  intros Hp Hdef. rewrite frame_cwnd.
  destruct (cwnd_of_ok (capacity_t_of capacity (rng (rng_pos st))) pkt_size Hp)
    as (w & -> & _).
  simpl. apply frame_no_cwnd_ok; exact Hdef.
Qed.

Lemma frame_inv (rng : random_source)
    (pkt_size bitrate capacity ptx : R) (t : Z) (st st' : loop_state) :
  frame rng pkt_size bitrate capacity ptx t st = Ok st' ->
  pkt_size <> 0 /\
  frame_defined rng bitrate capacity st /\
  st' = frame_result rng pkt_size bitrate capacity ptx t st.
Proof.
  rewrite frame_cwnd. intros H.
  apply bind_ok_inv in H as (w & Hw & H).
  split; [ | apply frame_no_cwnd_inv in H; exact H].
  intros ->.
  destruct (cwnd_of_zero (capacity_t_of capacity (rng (rng_pos st))))
    as (e & He).
  rewrite He in Hw. discriminate.
Qed.

Lemma frame_same_without_cwnd (rng : random_source)
    (pkt_size bitrate capacity ptx : R) (t : Z) (st : loop_state) :
  pkt_size <> 0 ->
  frame rng pkt_size bitrate capacity ptx t st =
  frame_no_cwnd rng pkt_size bitrate capacity ptx t st.
Proof.
  intros Hp. rewrite frame_cwnd.
  destruct (cwnd_of_ok (capacity_t_of capacity (rng (rng_pos st))) pkt_size Hp)
    as (w & -> & _).
  reflexivity.
Qed.

(** ** The loop *)

Lemma frame_result_closed (rng : random_source)
    (pkt_size bitrate capacity : R) (k : nat) :
  frame_result rng pkt_size bitrate capacity power_tx (Z.of_nat k)
    (closed_state rng pkt_size bitrate capacity k) =
  closed_state rng pkt_size bitrate capacity (S k).
Proof.
  unfold frame_result, closed_state, closed_results, append_frame.
  cbn [queue_length st_results rng_pos res_time res_bitrate res_psnr
       res_delay res_energy res_throughput].
  rewrite !seq_S, !map_app. cbn [map Nat.add].
  f_equal. lia.
Qed.

Section Loop.

Variable rng : random_source.
Variables pkt_size bitrate capacity : R.
Variable body : Z -> loop_state -> outcome loop_state.

Hypothesis body_inv : forall t st st',
  body t st = Ok st' ->
  st' = frame_result rng pkt_size bitrate capacity power_tx t st.

Lemma for_each_closed (k : nat) (st : loop_state) :
  for_each body (range (Z.of_nat k)) initial_state = Ok st ->
  st = closed_state rng pkt_size bitrate capacity k.
Proof.
  revert st. induction k as [| k IH]; intros st.
  - simpl. intros H. injection H as <-. reflexivity.
  - rewrite range_succ, for_each_app. intros H.
    apply bind_ok_inv in H as (st0 & H0 & H).
    apply IH in H0. subst st0.
    simpl in H. apply bind_ok_inv in H as (st1 & H1 & H).
    injection H as <-.
    apply body_inv in H1. rewrite H1. apply frame_result_closed.
Qed.

Lemma for_each_prefix (n k : nat) (st : loop_state) :
  (k <= n)%nat ->
  for_each body (range (Z.of_nat n)) initial_state = Ok st ->
  for_each body (range (Z.of_nat k)) initial_state =
  Ok (closed_state rng pkt_size bitrate capacity k).
Proof.
  revert st. induction n as [| n IH]; intros st Hk H.
  - assert (k = 0%nat) as -> by lia.
    rewrite H. f_equal. apply for_each_closed. exact H.
  - destruct (Nat.eq_dec k (S n)) as [-> | Hne].
    + rewrite H. f_equal. apply for_each_closed. exact H.
    + rewrite range_succ, for_each_app in H.
      apply bind_ok_inv in H as (st0 & H0 & _).
      apply (IH st0); [lia | exact H0].
Qed.

Hypothesis body_ok : forall t k,
  body t (closed_state rng pkt_size bitrate capacity k) =
  Ok (frame_result rng pkt_size bitrate capacity power_tx t
        (closed_state rng pkt_size bitrate capacity k)).

Lemma for_each_total (k : nat) :
  for_each body (range (Z.of_nat k)) initial_state =
  Ok (closed_state rng pkt_size bitrate capacity k).
Proof.
  induction k as [| k IH].
  - reflexivity.
  - rewrite range_succ, for_each_app, IH. simpl.
    rewrite body_ok. simpl. rewrite frame_result_closed. reflexivity.
Qed.

End Loop.

(** ** Arithmetic of one frame *)

Lemma random_uniform_bounds (draw : R) :
  0 <= draw < 1 -> 0.8 <= random_uniform 0.8 1.2 draw < 1.2.
Proof. unfold random_uniform. lra. Qed.

Lemma capacity_t_pos (capacity draw : R) :
  0 < capacity -> 0 <= draw < 1 -> 0 < capacity_t_of capacity draw.
Proof.
  intros Hc Hd. unfold capacity_t_of.
  pose proof (random_uniform_bounds draw Hd).
  apply Rmult_lt_0_compat; lra.
Qed.

Lemma adaptive_le_target (bitrate capacity_t : R) :
  adaptive_bitrate_of bitrate capacity_t <= bitrate * 1e6.
Proof. apply py_min_le_l. Qed.

Lemma adaptive_lt_capacity (bitrate capacity_t : R) :
  0 < capacity_t -> adaptive_bitrate_of bitrate capacity_t < capacity_t.
Proof.
  intros Hc. unfold adaptive_bitrate_of.
  pose proof (py_min_le_r (bitrate * 1e6) (capacity_t * 0.9)). lra.
Qed.

Lemma adaptive_pos (bitrate capacity_t : R) :
  0 < bitrate -> 0 < capacity_t -> 0 < adaptive_bitrate_of bitrate capacity_t.
Proof.
  intros Hb Hc. unfold adaptive_bitrate_of. apply py_min_pos; lra.
Qed.

Lemma queue_increment_nonneg (adaptive_bitrate capacity_t : R) :
  0 <= queue_increment adaptive_bitrate capacity_t.
Proof. apply py_max_ge_l. Qed.

Lemma queue_increment_zero (bitrate capacity_t : R) :
  0 < capacity_t ->
  queue_increment (adaptive_bitrate_of bitrate capacity_t) capacity_t = 0.
Proof.
  intros Hc. unfold queue_increment. apply py_max_left.
  pose proof (adaptive_lt_capacity bitrate capacity_t Hc). lra.
Qed.

Lemma link_eff_cases (draw : R) :
  (0.1 < draw /\ link_eff_of draw = 1) \/
  (draw <= 0.1 /\ link_eff_of draw = 0.9).
Proof.
  unfold link_eff_of. destruct (Rlt_dec 0.1 draw); [left | right]; lra.
Qed.

Lemma throughput_bounds (adaptive_bitrate draw : R) :
  0 <= adaptive_bitrate ->
  0 <= throughput_of adaptive_bitrate draw <= 0.95 * adaptive_bitrate.
Proof.
  intros Ha. unfold throughput_of, routing_eff.
  destruct (link_eff_cases draw) as [[_ ->] | [_ ->]]; lra.
Qed.

Lemma ratio_bounds (throughput bitrate : R) :
  0 < bitrate -> 0 <= throughput <= 0.95 * (bitrate * 1e6) ->
  0 <= throughput / (bitrate * 1e6) <= 0.95.
Proof.
  intros Hb [H0 H1].
  assert (Hd : 0 < bitrate * 1e6) by lra.
  split.
  - apply Rmult_le_pos; [exact H0 | ].
    apply Rlt_le, Rinv_0_lt_compat; exact Hd.
  - apply (Rmult_le_reg_r (bitrate * 1e6)); [exact Hd | ].
    unfold Rdiv. rewrite Rmult_assoc, Rinv_l by lra. lra.
Qed.

Lemma frame_defined_valid (rng : random_source)
    (bitrate capacity : R) (st : loop_state) :
  0 < capacity -> 0 < bitrate -> draws_in_unit rng ->
  frame_defined rng bitrate capacity st.
Proof.
  intros Hc Hb Hrng. unfold frame_defined.
  pose proof (capacity_t_pos capacity _ Hc (Hrng (rng_pos st))) as Hct.
  pose proof (adaptive_pos bitrate _ Hb Hct) as Ha.
  pose proof (adaptive_le_target bitrate
                (capacity_t_of capacity (rng (rng_pos st)))) as Hle.
  pose proof (throughput_bounds _ (rng (S (rng_pos st))) (Rlt_le _ _ Ha))
    as Hthr.
  assert (Hratio :
    0 <= throughput_of
           (adaptive_bitrate_of bitrate
              (capacity_t_of capacity (rng (rng_pos st))))
           (rng (S (rng_pos st))) / (bitrate * 1e6) <= 0.95).
  { apply ratio_bounds; lra. }
  repeat split; lra.
Qed.

(** ** The whole run *)

Lemma frame_body_inv (rng : random_source) (pkt_size bitrate capacity : R)
    (t : Z) (st st' : loop_state) :
  frame rng pkt_size bitrate capacity power_tx t st = Ok st' ->
  st' = frame_result rng pkt_size bitrate capacity power_tx t st.
Proof. intros H. apply frame_inv in H. apply H. Qed.

Lemma run_frames_unfold (rng : random_source)
    (bw snr_db pkt_size bitrate : R) (ts : list Z) :
  run_frames rng bw snr_db pkt_size bitrate ts =
  for_each (frame rng pkt_size bitrate (capacity_value bw snr_db) power_tx)
    ts initial_state.
Proof. unfold run_frames. rewrite shannon_capacity_ok. reflexivity. Qed.

(** A run that goes through leaves the state the closed forms describe. *)
Lemma run_frames_closed (rng : random_source)
    (bw snr_db pkt_size bitrate : R) (k : nat) (st : loop_state) :
  run_frames rng bw snr_db pkt_size bitrate (range (Z.of_nat k)) = Ok st ->
  st = closed_state rng pkt_size bitrate (capacity_value bw snr_db) k.
Proof.
  rewrite run_frames_unfold.
  apply for_each_closed. apply frame_body_inv.
Qed.

Lemma run_frames_prefix (rng : random_source)
    (bw snr_db pkt_size bitrate : R) (n k : nat) (st : loop_state) :
  (k <= n)%nat ->
  run_frames rng bw snr_db pkt_size bitrate (range (Z.of_nat n)) = Ok st ->
  run_frames rng bw snr_db pkt_size bitrate (range (Z.of_nat k)) =
  Ok (closed_state rng pkt_size bitrate (capacity_value bw snr_db) k).
Proof.
  rewrite !run_frames_unfold. intros Hk H.
  apply (for_each_prefix rng pkt_size bitrate (capacity_value bw snr_db)
           _ (frame_body_inv rng pkt_size bitrate _) n k st Hk H).
Qed.

(** On a configuration with positive bandwidth and bitrate and a packet size
    other than zero, every prefix of the run goes through. *)
Lemma run_frames_total (rng : random_source)
    (bw snr_db pkt_size bitrate : R) (k : nat) :
  0 < bw -> pkt_size <> 0 -> 0 < bitrate -> draws_in_unit rng ->
  run_frames rng bw snr_db pkt_size bitrate (range (Z.of_nat k)) =
  Ok (closed_state rng pkt_size bitrate (capacity_value bw snr_db) k).
Proof.
  intros Hbw Hp Hb Hrng. rewrite run_frames_unfold.
  apply for_each_total. intros t j.
  apply frame_ok; [exact Hp | ].
  apply frame_defined_valid;
    [apply capacity_value_pos; exact Hbw | exact Hb | exact Hrng].
Qed.

Lemma simulate_closed (rng : random_source)
    (bw snr_db pkt_size bitrate : R) (total_frames : Z) (res : results) :
  simulate_cross_layer rng bw snr_db pkt_size bitrate total_frames = Ok res ->
  res = closed_results rng pkt_size bitrate (capacity_value bw snr_db)
          (Z.to_nat total_frames).
Proof.
  unfold simulate_cross_layer. intros H.
  apply bind_ok_inv in H as (st & Hst & H). injection H as <-.
  rewrite range_to_nat in Hst. apply run_frames_closed in Hst.
  rewrite Hst. reflexivity.
Qed.

Lemma simulate_total (rng : random_source)
    (bw snr_db pkt_size bitrate : R) (total_frames : Z) :
  0 < bw -> pkt_size <> 0 -> 0 < bitrate -> draws_in_unit rng ->
  simulate_cross_layer rng bw snr_db pkt_size bitrate total_frames =
  Ok (closed_results rng pkt_size bitrate (capacity_value bw snr_db)
        (Z.to_nat total_frames)).
Proof.
  intros Hbw Hp Hb Hrng. unfold simulate_cross_layer.
  rewrite range_to_nat, run_frames_total by assumption.
  reflexivity.
Qed.

Lemma simulate_valid (rng : random_source)
    (bw snr_db pkt_size bitrate : R) (total_frames : Z) :
  valid_config bw pkt_size bitrate total_frames -> draws_in_unit rng ->
  simulate_cross_layer rng bw snr_db pkt_size bitrate total_frames =
  Ok (closed_results rng pkt_size bitrate (capacity_value bw snr_db)
        (Z.to_nat total_frames)).
Proof.
  intros (Hbw & Hp & Hb & _) Hrng. apply simulate_total; try assumption. lra.
Qed.

Lemma constant_draws_in_unit (x : R) :
  0 <= x < 1 -> draws_in_unit (constant_draws x).
Proof. intros Hx i. exact Hx. Qed.

Lemma closed_results_lengths (rng : random_source)
    (pkt_size bitrate capacity : R) (k : nat) :
  let res := closed_results rng pkt_size bitrate capacity k in
  length (res_time res) = k /\
  length (res_bitrate res) = k /\
  length (res_psnr res) = k /\
  length (res_delay res) = k /\
  length (res_energy res) = k /\
  length (res_throughput res) = k.
Proof.
  simpl. rewrite !length_map, length_seq. repeat split; reflexivity.
Qed.

Lemma nth_map_seq {A : Type} (f : nat -> A) (k i : nat) (d : A) :
  (i < k)%nat -> nth i (map f (seq 0 k)) d = f i.
Proof.
  intros Hi.
  rewrite (nth_indep _ d (f 0%nat)) by (rewrite length_map, length_seq; exact Hi).
  rewrite map_nth, seq_nth by exact Hi. reflexivity.
Qed.

(** On a packet size of zero, the first frame fails at line 40: the quotient
    is [inf] or [nan], and [int] raises. *)
Lemma simulate_zero_packet (rng : random_source)
    (bw snr_db bitrate : R) (total_frames : Z) :
  (0 < total_frames)%Z ->
  exists e : exn,
    simulate_cross_layer rng bw snr_db 0 bitrate total_frames = Raise e.
Proof.
  intros Hn. unfold simulate_cross_layer. rewrite run_frames_unfold.
  rewrite range_to_nat.
  destruct (Z.to_nat total_frames) as [| k] eqn:Hk; [lia | ].
  rewrite range_of_nat. cbn [seq map for_each].
  rewrite frame_cwnd.
  destruct (cwnd_of_zero
              (capacity_t_of (capacity_value bw snr_db)
                 (rng (rng_pos initial_state)))) as (e & ->).
  exists e. reflexivity.
Qed.

(** * The claims *)

(** ** C1: invalid configurations, at a concrete input *)

(** C1, at a concrete input.  The claim asks for an error on
    [frame_count = 0]; the function returns the empty dictionary instead,
    and raises nothing. *)
Lemma simulate_zero_frames_returns :
  simulate_cross_layer (constant_draws (1 / 2)) 10 15 5 8 0 = Ok empty_results
  /\ (forall e : exn,
        simulate_cross_layer (constant_draws (1 / 2)) 10 15 5 8 0 <> Raise e).
Proof.
  assert (H : simulate_cross_layer (constant_draws (1 / 2)) 10 15 5 8 0 =
              Ok empty_results).
  { unfold simulate_cross_layer. rewrite run_frames_unfold. reflexivity. }
  split; [exact H | ].
  intros e He. rewrite H in He. discriminate.
Qed.

(** In exact arithmetic, with [total_frames <= 0] the loop body never runs
    and the result returned has no frame record. *)
Lemma simulate_nonpositive_frames_exact (rng : random_source)
    (bw snr_db pkt_size bitrate : R) (total_frames : Z) :
  (total_frames <= 0)%Z ->
  simulate_cross_layer rng bw snr_db pkt_size bitrate total_frames =
  Ok empty_results.
Proof.
  intros Hn. unfold simulate_cross_layer. rewrite run_frames_unfold.
  rewrite (range_nonpos total_frames Hn). reflexivity.
Qed.

(** ** C3: one record per frame, in order *)

(** C3.  On a valid configuration the run goes through, each of the six
    series has exactly [total_frames] entries, and the time series is
    [0, 1, ..., total_frames - 1]. *)
Theorem result_has_one_record_per_frame (rng : random_source)
    (bw snr_db pkt_size bitrate : R) (total_frames : Z) :
  valid_config bw pkt_size bitrate total_frames ->
  draws_in_unit rng ->
  exists res : results,
    simulate_cross_layer rng bw snr_db pkt_size bitrate total_frames = Ok res /\
    Z.of_nat (length (res_time res)) = total_frames /\
    Z.of_nat (length (res_bitrate res)) = total_frames /\
    Z.of_nat (length (res_psnr res)) = total_frames /\
    Z.of_nat (length (res_delay res)) = total_frames /\
    Z.of_nat (length (res_energy res)) = total_frames /\
    Z.of_nat (length (res_throughput res)) = total_frames /\
    res_time res = range total_frames /\
    (forall i : nat,
       (Z.of_nat i < total_frames)%Z ->
       nth i (res_time res) (-1)%Z = Z.of_nat i).
Proof.
  intros Hv Hrng. eexists. split; [apply simulate_valid; assumption | ].
  destruct Hv as (_ & _ & _ & Hn).
  destruct (closed_results_lengths rng pkt_size bitrate
              (capacity_value bw snr_db) (Z.to_nat total_frames))
    as (H1 & H2 & H3 & H4 & H5 & H6).
  cbv zeta in H1, H2, H3, H4, H5, H6.
  rewrite H1, H2, H3, H4, H5, H6, Z2Nat.id by lia.
  repeat split; try reflexivity.
  intros i Hi. cbn [closed_results res_time].
  apply nth_map_seq. lia.
Qed.

Lemma result_has_one_record_per_frame_witness :
  exists res : results,
    simulate_cross_layer (constant_draws (1 / 2)) 10 15 5 8 50 = Ok res /\
    Z.of_nat (length (res_time res)) = 50%Z /\
    nth 49 (res_time res) (-1)%Z = 49%Z.
Proof.
  destruct (result_has_one_record_per_frame
              (constant_draws (1 / 2)) 10 15 5 8 50)
    as (res & Hres & Hlen & _ & _ & _ & _ & _ & _ & Hnth).
  - unfold valid_config. repeat split; try lra; lia.
  - apply constant_draws_in_unit. lra.
  - exists res. split; [exact Hres | ]. split; [exact Hlen | ].
    apply (Hnth 49%nat). lia.
Defined.

(** ** C9: determinism under a fixed random source *)

Lemma frame_rng_ext (rng1 rng2 : random_source)
    (pkt_size bitrate capacity ptx : R) (t : Z) (st : loop_state) :
  rng1 (rng_pos st) = rng2 (rng_pos st) ->
  rng1 (S (rng_pos st)) = rng2 (S (rng_pos st)) ->
  frame rng1 pkt_size bitrate capacity ptx t st =
  frame rng2 pkt_size bitrate capacity ptx t st.
Proof. intros H0 H1. unfold frame. rewrite H0, H1. reflexivity. Qed.

Lemma for_each_frame_rng_ext (rng1 rng2 : random_source)
    (pkt_size bitrate capacity : R) (k : nat) :
  (forall i : nat, (i < 2 * k)%nat -> rng1 i = rng2 i) ->
  for_each (frame rng1 pkt_size bitrate capacity power_tx)
    (range (Z.of_nat k)) initial_state =
  for_each (frame rng2 pkt_size bitrate capacity power_tx)
    (range (Z.of_nat k)) initial_state.
Proof.
  induction k as [| k IH]; intros Hagree.
  - reflexivity.
  - rewrite !range_succ, !for_each_app.
    rewrite IH by (intros i Hi; apply Hagree; lia).
    destruct (for_each (frame rng2 pkt_size bitrate capacity power_tx)
                (range (Z.of_nat k)) initial_state) as [st | e | ] eqn:Hrun;
      [ | reflexivity ..].
    apply (for_each_closed rng2 pkt_size bitrate capacity _
             (frame_body_inv rng2 pkt_size bitrate capacity)) in Hrun.
    assert (Hpos : rng_pos st = (2 * k)%nat) by (rewrite Hrun; reflexivity).
    cbn [bind for_each].
    rewrite (frame_rng_ext rng1 rng2);
      [reflexivity | rewrite Hpos; apply Hagree; lia ..].
Qed.

(** C9.  The result is a function of the configuration and of the random
    draws the run reads, two per frame: two runs on the same configuration
    whose random sources agree on those draws have the same outcome, hence
    the same six series, entry for entry. *)
Theorem simulate_deterministic (rng1 rng2 : random_source)
    (bw snr_db pkt_size bitrate : R) (total_frames : Z) :
  (forall i : nat, (i < 2 * Z.to_nat total_frames)%nat -> rng1 i = rng2 i) ->
  simulate_cross_layer rng1 bw snr_db pkt_size bitrate total_frames =
  simulate_cross_layer rng2 bw snr_db pkt_size bitrate total_frames.
Proof.
  intros Hagree. unfold simulate_cross_layer.
  rewrite !run_frames_unfold, (range_to_nat total_frames).
  rewrite (for_each_frame_rng_ext rng1 rng2) by exact Hagree.
  reflexivity.
Qed.

Lemma simulate_deterministic_witness :
  simulate_cross_layer (constant_draws (1 / 2)) 10 15 5 8 3 =
  simulate_cross_layer
    (fun i => if (i <? 6)%nat then 1 / 2 else 0) 10 15 5 8 3.
Proof.
  apply (simulate_deterministic (constant_draws (1 / 2))
           (fun i => if (i <? 6)%nat then 1 / 2 else 0) 10 15 5 8 3).
  intros i Hi. unfold constant_draws.
  change (2 * Z.to_nat 3)%nat with 6%nat in Hi.
  apply Nat.ltb_lt in Hi. rewrite Hi. reflexivity.
Defined.

(** ** C10: the congestion window *)

(** C10.  The congestion window feeds no other quantity.  On every
    configuration whose packet size is not zero, as it is in every
    configuration of the specification, the function and the function
    without line 40 have the same outcome on the same draws, hence the same
    six series; and for any [pkt_size], whenever the function returns a
    result, the function without line 40 returns the same result. *)
Theorem cwnd_is_unused (rng : random_source)
    (bw snr_db pkt_size bitrate : R) (total_frames : Z) :
  (pkt_size <> 0 ->
   simulate_cross_layer rng bw snr_db pkt_size bitrate total_frames =
   simulate_no_cwnd rng bw snr_db pkt_size bitrate total_frames) /\
  (forall res : results,
     simulate_cross_layer rng bw snr_db pkt_size bitrate total_frames = Ok res ->
     simulate_no_cwnd rng bw snr_db pkt_size bitrate total_frames = Ok res).
Proof.
  assert (Hsame : pkt_size <> 0 ->
    simulate_cross_layer rng bw snr_db pkt_size bitrate total_frames =
    simulate_no_cwnd rng bw snr_db pkt_size bitrate total_frames).
  { intros Hp. unfold simulate_cross_layer, simulate_no_cwnd.
    rewrite run_frames_unfold, shannon_capacity_ok. cbn [bind].
    rewrite (for_each_ext
               (frame rng pkt_size bitrate (capacity_value bw snr_db) power_tx)
               (frame_no_cwnd rng pkt_size bitrate
                  (capacity_value bw snr_db) power_tx)).
    - reflexivity.
    - intros t s. apply frame_same_without_cwnd. exact Hp. }
  split; [exact Hsame | ].
  intros res Hres.
  destruct (Req_dec_T pkt_size 0) as [-> | Hp].
  - destruct (Z_lt_le_dec 0 total_frames) as [Hn | Hn].
    + destruct (simulate_zero_packet rng bw snr_db bitrate total_frames Hn)
        as (e & He).
      rewrite He in Hres. discriminate.
    + unfold simulate_cross_layer in Hres.
      rewrite run_frames_unfold, (range_nonpos _ Hn) in Hres.
      unfold simulate_no_cwnd.
      rewrite shannon_capacity_ok, (range_nonpos _ Hn). exact Hres.
  - rewrite <- (Hsame Hp). exact Hres.
Qed.

Lemma cwnd_is_unused_witness :
  simulate_cross_layer (constant_draws (1 / 2)) 10 15 5 8 50 =
  simulate_no_cwnd (constant_draws (1 / 2)) 10 15 5 8 50.
Proof.
  apply (proj1 (cwnd_is_unused (constant_draws (1 / 2)) 10 15 5 8 50)).
  lra.
Defined.

(** ** Logarithms and the shape of the PSNR formula *)

Lemma ln_monotone (x y : R) : 0 < x -> x <= y -> ln x <= ln y.
Proof.
  intros Hx [Hlt | ->]; [ | lra].
  apply Rlt_le, ln_increasing; assumption.
Qed.

Lemma log10_monotone (x y : R) : 0 < x -> x <= y -> log10 x <= log10 y.
Proof.
  intros Hx Hxy. unfold log10, Rdiv.
  apply Rmult_le_compat_r.
  - apply Rlt_le, Rinv_0_lt_compat, ln10_pos.
  - apply ln_monotone; assumption.
Qed.

Lemma ln_sqrt_half (x : R) : 0 < x -> ln (sqrt x) = ln x / 2.
Proof.
  intros Hx.
  pose proof (sqrt_lt_R0 x Hx) as Hs.
  assert (H : ln x = ln (sqrt x) + ln (sqrt x)).
  { rewrite <- ln_mult by assumption.
    rewrite sqrt_sqrt by lra. reflexivity. }
  lra.
Qed.

Lemma psnr_value_le_peak (mse : R) :
  1 <= mse -> psnr_value mse <= 20 * log10 255.
Proof.
  intros Hm. pose proof (sqrt_ge_1 mse Hm) as Hs.
  unfold psnr_value.
  apply Rmult_le_compat_l; [lra | ].
  apply log10_monotone.
  - apply Rdiv_lt_0_compat; lra.
  - apply (Rmult_le_reg_r (sqrt mse)); [lra | ].
    unfold Rdiv. rewrite Rmult_assoc, Rinv_l by lra. nra.
Qed.

(** With [mse = 255**2 / x], the formula of line 60 is [10 * log10 x]. *)
Lemma psnr_value_quotient (x : R) :
  0 < x -> psnr_value (255 ^ 2 / x) = 10 * log10 x.
Proof.
  intros Hx. pose proof (sqrt_lt_R0 x Hx) as Hs.
  unfold psnr_value, log10.
  rewrite sqrt_div by lra.
  rewrite sqrt_pow2 by lra.
  replace (255 / (255 / sqrt x)) with (sqrt x) by (field; lra).
  rewrite ln_sqrt_half by exact Hx.
  pose proof ln10_pos. field. lra.
Qed.

Lemma mse_quotient_ge (throughput bitrate : R) :
  0 <= throughput / (bitrate * 1e6) <= 0.95 ->
  255 ^ 2 / 1.05 <= mse_quotient throughput bitrate.
Proof.
  intros [H0 H1]. unfold mse_quotient, Rdiv.
  apply Rmult_le_compat_l; [lra | ].
  apply Rinv_le_contravar; unfold Rdiv in *; lra.
Qed.

Lemma mse_clamp_inactive : 1 < 255 ^ 2 / 1.05.
Proof. lra. Qed.

Lemma mse_value_unclamped (throughput bitrate : R) :
  0 <= throughput / (bitrate * 1e6) <= 0.95 ->
  mse_value throughput bitrate = mse_quotient throughput bitrate.
Proof.
  intros Hr. unfold mse_value. apply py_max_right.
  pose proof (mse_quotient_ge throughput bitrate Hr).
  pose proof mse_clamp_inactive. lra.
Qed.

(** ** The closed forms on a valid configuration *)

Lemma queue_after_nonneg (rng : random_source) (bitrate capacity : R)
    (k : nat) :
  0 <= queue_after rng bitrate capacity k.
Proof.
  induction k as [| k IH]; simpl; [lra | ].
  pose proof (queue_increment_nonneg
                (adaptive_at rng bitrate capacity k)
                (capacity_t_at rng capacity k)).
  lra.
Qed.

Lemma capacity_t_at_pos (rng : random_source) (capacity : R) (i : nat) :
  0 < capacity -> draws_in_unit rng -> 0 < capacity_t_at rng capacity i.
Proof. intros Hc Hrng. apply capacity_t_pos; [exact Hc | apply Hrng]. Qed.

Lemma queue_increment_at_zero (rng : random_source) (bitrate capacity : R)
    (i : nat) :
  0 < capacity -> draws_in_unit rng ->
  queue_increment (adaptive_at rng bitrate capacity i)
                  (capacity_t_at rng capacity i) = 0.
Proof.
  intros Hc Hrng. apply queue_increment_zero.
  apply capacity_t_at_pos; assumption.
Qed.

Lemma queue_after_zero (rng : random_source) (bitrate capacity : R)
    (k : nat) :
  0 < capacity -> draws_in_unit rng -> queue_after rng bitrate capacity k = 0.
Proof.
  intros Hc Hrng. induction k as [| k IH]; simpl; [reflexivity | ].
  rewrite IH, queue_increment_at_zero by assumption. lra.
Qed.

Lemma adaptive_at_bounds (rng : random_source) (bitrate capacity : R)
    (i : nat) :
  0 < capacity -> 0 < bitrate -> draws_in_unit rng ->
  0 < adaptive_at rng bitrate capacity i <= bitrate * 1e6.
Proof.
  intros Hc Hb Hrng. split.
  - apply adaptive_pos; [exact Hb | apply capacity_t_at_pos; assumption].
  - apply adaptive_le_target.
Qed.

Lemma throughput_at_bounds (rng : random_source) (bitrate capacity : R)
    (i : nat) :
  0 < capacity -> 0 < bitrate -> draws_in_unit rng ->
  0 <= throughput_at rng bitrate capacity i <=
  0.95 * adaptive_at rng bitrate capacity i.
Proof.
  intros Hc Hb Hrng. apply throughput_bounds.
  apply Rlt_le, adaptive_at_bounds; assumption.
Qed.

Lemma ratio_at_bounds (rng : random_source) (bitrate capacity : R) (i : nat) :
  0 < capacity -> 0 < bitrate -> draws_in_unit rng ->
  0 <= throughput_at rng bitrate capacity i / (bitrate * 1e6) <= 0.95.
Proof.
  intros Hc Hb Hrng. apply ratio_bounds; [exact Hb | ].
  pose proof (throughput_at_bounds rng bitrate capacity i Hc Hb Hrng).
  pose proof (adaptive_at_bounds rng bitrate capacity i Hc Hb Hrng).
  lra.
Qed.

Lemma Forall_map_seq {A : Type} (P : A -> Prop) (f : nat -> A) (k : nat) :
  (forall i : nat, (i < k)%nat -> P (f i)) -> Forall P (map f (seq 0 k)).
Proof.
  intros H. apply Forall_forall. intros x Hx.
  apply in_map_iff in Hx as (i & <- & Hi).
  apply in_seq in Hi. apply H. lia.
Qed.

(** ** C2: the queue never grows *)

(** C2.  With [bw > 0] the capacity of every frame is positive, the adaptive
    bitrate is at most [0.9 * capacity_t], which is below [capacity_t], and
    the increment of the queue is [0]; so [queue_length] is [0] after any
    number of frames, and every delay a run records is [0]. *)
Theorem queue_stays_empty (rng : random_source)
    (bw snr_db pkt_size bitrate : R) :
  0 < bw ->
  draws_in_unit rng ->
  let capacity := capacity_value bw snr_db in
  0 < capacity /\
  (forall i : nat,
     let capacity_t := capacity_t_at rng capacity i in
     let adaptive_bitrate := adaptive_at rng bitrate capacity i in
     0 < capacity_t /\
     adaptive_bitrate <= 0.9 * capacity_t /\
     0.9 * capacity_t < capacity_t /\
     queue_increment adaptive_bitrate capacity_t = 0) /\
  (forall (k : nat) (st : loop_state),
     run_frames rng bw snr_db pkt_size bitrate (range (Z.of_nat k)) = Ok st ->
     queue_length st = 0) /\
  (forall (total_frames : Z) (res : results),
     simulate_cross_layer rng bw snr_db pkt_size bitrate total_frames = Ok res ->
     Forall (fun delay => delay = 0) (res_delay res)).
Proof.
  intros Hbw Hrng capacity.
  assert (Hc : 0 < capacity) by (apply capacity_value_pos; exact Hbw).
  split; [exact Hc | ].
  split; [ | split].
  - intros i capacity_t adaptive_bitrate.
    assert (Hct : 0 < capacity_t) by (apply capacity_t_at_pos; assumption).
    repeat split.
    + exact Hct.
    + pose proof (py_min_le_r (bitrate * 1e6) (capacity_t * 0.9)) as Hm.
      unfold adaptive_bitrate, adaptive_at, adaptive_bitrate_of.
      fold capacity_t. lra.
    + lra.
    + apply queue_increment_at_zero; assumption.
  - intros k st Hst. apply run_frames_closed in Hst. rewrite Hst.
    apply queue_after_zero; assumption.
  - intros total_frames res Hres. apply simulate_closed in Hres.
    rewrite Hres. cbn [closed_results res_delay].
    apply Forall_map_seq. intros i _. unfold delay_at.
    rewrite queue_after_zero by assumption.
    unfold Rdiv. apply Rmult_0_l.
Qed.

Lemma queue_stays_empty_witness :
  exists res : results,
    simulate_cross_layer (constant_draws (1 / 2)) 10 15 5 8 50 = Ok res /\
    length (res_delay res) = 50%nat /\
    Forall (fun delay => delay = 0) (res_delay res).
Proof.
  assert (Hbw : 0 < 10) by lra.
  assert (Hrng : draws_in_unit (constant_draws (1 / 2)))
    by (apply constant_draws_in_unit; lra).
  destruct (queue_stays_empty (constant_draws (1 / 2)) 10 15 5 8 Hbw Hrng)
    as (_ & _ & _ & Hdelay).
  eexists. split; [ | split].
  - apply simulate_total; [lra | lra | lra | exact Hrng].
  - cbn [closed_results res_delay]. rewrite length_map, length_seq.
    reflexivity.
  - apply (Hdelay 50%Z). apply simulate_total; [lra | lra | lra | exact Hrng].
Defined.

(** ** C4: adaptive bitrate and throughput *)

(** C4.  On a valid configuration, the record of frame [i] holds the
    bitrate [min(bitrate * 1e6, capacity_t * 0.9)] and the throughput
    [adaptive_bitrate * 0.95 * link_eff], both divided by [1e6]; [link_eff]
    is decided by the frame's own link draw, [0.9] when that draw is at most
    [0.1] (a tenth of the interval the draw is uniform on) and [1]
    otherwise; and the throughput is at most
    [0.95 * adaptive_bitrate], itself at most [0.95 * bitrate * 1e6]. *)
Theorem bitrate_and_throughput_formulas (rng : random_source)
    (bw snr_db pkt_size bitrate : R) (total_frames : Z) :
  valid_config bw pkt_size bitrate total_frames ->
  draws_in_unit rng ->
  exists res : results,
    simulate_cross_layer rng bw snr_db pkt_size bitrate total_frames = Ok res /\
    forall i : nat,
      (Z.of_nat i < total_frames)%Z ->
      let capacity_t :=
        capacity_value bw snr_db * random_uniform 0.8 1.2 (rng (2 * i)%nat) in
      let adaptive_bitrate := Rmin (bitrate * 1e6) (capacity_t * 0.9) in
      let link_draw := rng (2 * i + 1)%nat in
      exists link_eff : R,
        (link_draw <= 0.1 /\ link_eff = 0.9 \/ 0.1 < link_draw /\ link_eff = 1) /\
        nth i (res_bitrate res) 0 = adaptive_bitrate / 1e6 /\
        nth i (res_throughput res) 0 =
          adaptive_bitrate * 0.95 * link_eff / 1e6 /\
        adaptive_bitrate * 0.95 * link_eff <= 0.95 * adaptive_bitrate /\
        0.95 * adaptive_bitrate <= 0.95 * (bitrate * 1e6).
Proof.
  intros Hv Hrng. eexists. split; [apply simulate_valid; assumption | ].
  destruct Hv as (Hbw & Hp & Hb & Hn).
  intros i Hi capacity_t adaptive_bitrate link_draw.
  assert (Hik : (i < Z.to_nat total_frames)%nat) by lia.
  assert (Hc : 0 < capacity_value bw snr_db)
    by (apply capacity_value_pos; exact Hbw).
  assert (Had : adaptive_at rng bitrate (capacity_value bw snr_db) i =
                adaptive_bitrate).
  { unfold adaptive_at, adaptive_bitrate_of, capacity_t_at, capacity_t_of.
    rewrite py_min_Rmin. reflexivity. }
  pose proof (adaptive_at_bounds rng bitrate _ i Hc Hb Hrng) as Hbounds.
  rewrite Had in Hbounds.
  unfold link_draw. replace (2 * i + 1)%nat with (S (2 * i)) by lia.
  exists (link_eff_of (rng (S (2 * i)))).
  cbn [closed_results res_bitrate res_throughput].
  rewrite !nth_map_seq by exact Hik.
  unfold throughput_at, throughput_of, routing_eff. rewrite Had.
  split; [ | split; [reflexivity | split; [reflexivity | ]]].
  - destruct (link_eff_cases (rng (S (2 * i)))) as [H | H];
      [right | left]; exact H.
  - destruct (link_eff_cases (rng (S (2 * i)))) as [[_ ->] | [_ ->]]; lra.
Qed.

Lemma bitrate_and_throughput_formulas_witness :
  exists res : results,
    simulate_cross_layer (constant_draws (1 / 2)) 10 15 5 8 50 = Ok res /\
    nth 7 (res_bitrate res) 0 =
      Rmin (8 * 1e6)
        (capacity_value 10 15 * random_uniform 0.8 1.2 (1 / 2) * 0.9) / 1e6.
Proof.
  destruct (bitrate_and_throughput_formulas
              (constant_draws (1 / 2)) 10 15 5 8 50)
    as (res & Hres & Hframes).
  - unfold valid_config. repeat split; try lra; lia.
  - apply constant_draws_in_unit. lra.
  - exists res. split; [exact Hres | ].
    destruct (Hframes 7%nat) as (link_eff & _ & Hbit & _); [lia | ].
    exact Hbit.
Defined.

(** ** Every frame is well defined, in exact arithmetic *)

Lemma psnr_at_bounds (rng : random_source) (bitrate capacity : R) (i : nat) :
  0 < capacity -> 0 < bitrate -> draws_in_unit rng ->
  10 * log10 0.1 <= psnr_at rng bitrate capacity i <= 10 * log10 1.05.
Proof.
  intros Hc Hb Hrng.
  pose proof (ratio_at_bounds rng bitrate capacity i Hc Hb Hrng) as Hr.
  unfold psnr_at. rewrite mse_value_unclamped by exact Hr.
  unfold mse_quotient. rewrite psnr_value_quotient by lra.
  split; (apply Rmult_le_compat_l; [lra | apply log10_monotone; lra]).
Qed.

(** In exact arithmetic: on a valid configuration, whatever the draws in
    [[0, 1)], the run
    raises nothing and leaves the reals nowhere: no divisor is zero (the
    packet size in bits, [capacity_t + 1e-9], [capacity_t], the bitrate in
    bits per second, the ratio plus [0.1], the square root of [mse]), and the
    arguments of the logarithms and of the square root are positive.  Every
    delay, energy, bitrate and throughput recorded is non-negative, and every
    PSNR lies between [10 * log10 0.1] and [10 * log10 1.05]. *)
Lemma frames_are_well_defined_exact (rng : random_source)
    (bw snr_db pkt_size bitrate : R) (total_frames : Z) :
  valid_config bw pkt_size bitrate total_frames ->
  draws_in_unit rng ->
  (exists res : results,
     simulate_cross_layer rng bw snr_db pkt_size bitrate total_frames = Ok res /\
     length (res_psnr res) = Z.to_nat total_frames /\
     Forall (fun delay => 0 <= delay) (res_delay res) /\
     Forall (fun energy => 0 <= energy) (res_energy res) /\
     Forall (fun b => 0 <= b) (res_bitrate res) /\
     Forall (fun thr => 0 <= thr) (res_throughput res) /\
     Forall (fun psnr => 10 * log10 0.1 <= psnr <= 10 * log10 1.05)
       (res_psnr res)) /\
  0 < 1 + Rpower 10 (snr_db / 10) /\
  pkt_size * 1024 * 8 <> 0 /\
  bitrate * 1e6 <> 0 /\
  (forall i : nat,
     let capacity_t := capacity_t_at rng (capacity_value bw snr_db) i in
     let throughput := throughput_at rng bitrate (capacity_value bw snr_db) i in
     let mse := mse_value throughput bitrate in
     capacity_t + 1e-9 <> 0 /\
     capacity_t <> 0 /\
     throughput / (bitrate * 1e6) + 0.1 <> 0 /\
     0 < mse /\
     sqrt mse <> 0 /\
     0 < 255 / sqrt mse).
Proof.
  intros Hv Hrng.
  pose proof Hv as (Hbw & Hp & Hb & Hn).
  assert (Hc : 0 < capacity_value bw snr_db)
    by (apply capacity_value_pos; exact Hbw).
  split; [ | split; [ | split; [ | split]]].
  - eexists. split; [apply simulate_valid; assumption | ].
    cbn [closed_results res_psnr res_delay res_energy res_bitrate
         res_throughput].
    split; [rewrite length_map, length_seq; reflexivity | ].
    repeat split; apply Forall_map_seq; intros i _.
    + unfold delay_at. rewrite queue_after_zero by assumption.
      unfold Rdiv. rewrite Rmult_0_l. lra.
    + unfold energy_at, power_tx.
      pose proof (capacity_t_at_pos rng _ i Hc Hrng) as Hct.
      apply Rmult_le_pos; [lra | ].
      apply Rmult_le_pos; [lra | ].
      apply Rlt_le, Rinv_0_lt_compat. exact Hct.
    + pose proof (adaptive_at_bounds rng bitrate _ i Hc Hb Hrng). lra.
    + pose proof (throughput_at_bounds rng bitrate _ i Hc Hb Hrng). lra.
    + apply (psnr_at_bounds rng bitrate _ i Hc Hb Hrng).
  - pose proof (snr_lin_pos snr_db). lra.
  - lra.
  - lra.
  - intros i capacity_t throughput mse.
    pose proof (capacity_t_at_pos rng _ i Hc Hrng) as Hct.
    fold capacity_t in Hct.
    pose proof (ratio_at_bounds rng bitrate _ i Hc Hb Hrng) as Hr.
    fold throughput in Hr.
    pose proof (mse_value_ge_1 throughput bitrate) as Hm. fold mse in Hm.
    pose proof (sqrt_ge_1 mse Hm) as Hs.
    repeat split; try lra.
    apply Rdiv_lt_0_compat; lra.
Qed.

(** ** C7: the PSNR ceiling *)

(** C7.  On a valid configuration, whatever the draws, [mse] is at least [1]
    in every frame and every PSNR recorded is at most [20 * log10 255]. *)
Theorem psnr_at_most_peak (rng : random_source)
    (bw snr_db pkt_size bitrate : R) (total_frames : Z) :
  valid_config bw pkt_size bitrate total_frames ->
  draws_in_unit rng ->
  (forall i : nat,
     1 <= mse_value
            (throughput_at rng bitrate (capacity_value bw snr_db) i) bitrate) /\
  exists res : results,
    simulate_cross_layer rng bw snr_db pkt_size bitrate total_frames = Ok res /\
    length (res_psnr res) = Z.to_nat total_frames /\
    (forall i : nat,
       (i < Z.to_nat total_frames)%nat ->
       nth i (res_psnr res) 0 =
       psnr_value
         (mse_value
            (throughput_at rng bitrate (capacity_value bw snr_db) i) bitrate)) /\
    Forall (fun psnr => psnr <= 20 * log10 255) (res_psnr res).
Proof.
  intros Hv Hrng.
  split; [intros i; apply mse_value_ge_1 | ].
  eexists. split; [apply simulate_valid; assumption | ].
  cbn [closed_results res_psnr].
  split; [rewrite length_map, length_seq; reflexivity | ].
  split.
  - intros i Hi. rewrite nth_map_seq by exact Hi. reflexivity.
  - apply Forall_map_seq. intros i _. unfold psnr_at.
    apply psnr_value_le_peak, mse_value_ge_1.
Qed.

Lemma psnr_at_most_peak_witness :
  exists res : results,
    simulate_cross_layer (constant_draws (1 / 2)) 20 30 1 1 10 = Ok res /\
    length (res_psnr res) = 10%nat /\
    Forall (fun psnr => psnr <= 20 * log10 255) (res_psnr res).
Proof.
  destruct (psnr_at_most_peak (constant_draws (1 / 2)) 20 30 1 1 10)
    as (_ & res & Hres & Hlen & _ & Hall).
  - unfold valid_config. repeat split; try lra; lia.
  - apply constant_draws_in_unit. lra.
  - exists res. split; [exact Hres | ]. split; [exact Hlen | exact Hall].
Defined.

(** ** C6: the queue accumulator and the delay *)

(** C6.  [queue_length] is [0] before the first frame.  Frame [k] takes it
    from its value after [k] frames to that value plus
    [max(0, adaptive_bitrate - capacity_t)], an increment that is never
    negative, so the queue is never below [0] and never decreases; and the
    delay the frame appends is the updated queue divided by
    [capacity_t + 1e-9].  In the result of a run, the delay of frame [i] is
    the queue after [i + 1] frames over that frame's [capacity_t + 1e-9]. *)
Theorem queue_length_accumulates (rng : random_source)
    (bw snr_db pkt_size bitrate : R) :
  let capacity := capacity_value bw snr_db in
  run_frames rng bw snr_db pkt_size bitrate (range 0) = Ok initial_state /\
  queue_length initial_state = 0 /\
  (forall (k : nat) (st st' : loop_state),
     run_frames rng bw snr_db pkt_size bitrate (range (Z.of_nat k)) = Ok st ->
     run_frames rng bw snr_db pkt_size bitrate (range (Z.of_nat (S k))) =
       Ok st' ->
     let capacity_t := capacity_t_at rng capacity k in
     let adaptive_bitrate := adaptive_at rng bitrate capacity k in
     queue_length st' =
       queue_length st + Rmax 0 (adaptive_bitrate - capacity_t) /\
     0 <= Rmax 0 (adaptive_bitrate - capacity_t) /\
     0 <= queue_length st /\
     queue_length st <= queue_length st' /\
     res_delay (st_results st') =
       res_delay (st_results st) ++
       [queue_length st' / (capacity_t + 1e-9)]) /\
  (forall (total_frames : Z) (res : results) (i : nat),
     simulate_cross_layer rng bw snr_db pkt_size bitrate total_frames = Ok res ->
     (i < Z.to_nat total_frames)%nat ->
     exists st' : loop_state,
       run_frames rng bw snr_db pkt_size bitrate (range (Z.of_nat (S i))) =
         Ok st' /\
       nth i (res_delay res) 0 =
         queue_length st' / (capacity_t_at rng capacity i + 1e-9)).
Proof.
  intros capacity.
  split; [rewrite run_frames_unfold; reflexivity | ].
  split; [reflexivity | ].
  split.
  - intros k st st' Hst Hst' capacity_t adaptive_bitrate.
    apply run_frames_closed in Hst, Hst'. subst st st'.
    fold capacity.
    cbn [closed_state queue_length st_results closed_results res_delay
         queue_after].
    fold capacity_t adaptive_bitrate.
    unfold queue_increment. rewrite py_max_Rmax.
    pose proof (Rmax_l 0 (adaptive_bitrate - capacity_t)) as Hinc.
    pose proof (queue_after_nonneg rng bitrate capacity k) as Hq.
    repeat split; try lra.
    rewrite seq_S, map_app. cbn [map Nat.add].
    unfold delay_at at 2. cbn [queue_after].
    fold capacity_t adaptive_bitrate.
    unfold queue_increment. rewrite py_max_Rmax. reflexivity.
  - intros total_frames res i Hres Hi.
    pose proof (simulate_closed _ _ _ _ _ _ _ Hres) as Hclosed.
    unfold simulate_cross_layer in Hres.
    apply bind_ok_inv in Hres as (st & Hst & _).
    rewrite range_to_nat in Hst.
    pose proof (run_frames_prefix rng bw snr_db pkt_size bitrate
                  (Z.to_nat total_frames) (S i) st Hi Hst) as Hprefix.
    eexists. split; [exact Hprefix | ].
    rewrite Hclosed. cbn [closed_results res_delay].
    rewrite nth_map_seq by exact Hi. reflexivity.
Qed.

Lemma queue_length_accumulates_witness :
  exists st' : loop_state,
    run_frames (constant_draws (1 / 2)) 10 15 5 8 (range 1) = Ok st' /\
    queue_length st' =
      0 + Rmax 0 (adaptive_at (constant_draws (1 / 2)) 8
                    (capacity_value 10 15) 0 -
                  capacity_t_at (constant_draws (1 / 2))
                    (capacity_value 10 15) 0).
Proof.
  assert (Hrng : draws_in_unit (constant_draws (1 / 2)))
    by (apply constant_draws_in_unit; lra).
  assert (H1 : run_frames (constant_draws (1 / 2)) 10 15 5 8
                 (range (Z.of_nat 1)) =
               Ok (closed_state (constant_draws (1 / 2)) 5 8
                     (capacity_value 10 15) 1))
    by (apply run_frames_total; [lra | lra | lra | exact Hrng]).
  destruct (queue_length_accumulates (constant_draws (1 / 2)) 10 15 5 8)
    as (H0 & _ & Hstep & _).
  destruct (Hstep 0%nat _ _ H0 H1) as (Hq & _).
  eexists. split; [exact H1 | exact Hq].
Defined.

(** ** C8: the clamp on [mse] is never active *)

(** C8.  On a valid configuration, in every frame the ratio of the
    throughput to the target bitrate is at most [0.95]; the quotient under
    the [max] of line 59 is then at least [255^2 / 1.05], which exceeds [1],
    so [mse] is that quotient itself, and the PSNR recorded is at most
    [10 * log10 1.05]. *)
Theorem mse_clamp_never_active (rng : random_source)
    (bw snr_db pkt_size bitrate : R) (total_frames : Z) :
  valid_config bw pkt_size bitrate total_frames ->
  draws_in_unit rng ->
  exists res : results,
    simulate_cross_layer rng bw snr_db pkt_size bitrate total_frames = Ok res /\
    forall i : nat,
      (i < Z.to_nat total_frames)%nat ->
      let capacity_t := capacity_t_at rng (capacity_value bw snr_db) i in
      let throughput := throughput_at rng bitrate (capacity_value bw snr_db) i in
      let quotient := 255 ^ 2 / (throughput / (bitrate * 1e6) + 0.1) in
      nth i (res_throughput res) 0 = throughput / 1e6 /\
      throughput / (bitrate * 1e6) <= 0.95 /\
      255 ^ 2 / 1.05 <= quotient /\
      1 < 255 ^ 2 / 1.05 /\
      Rmax 1 quotient = quotient /\
      mse_of (adaptive_is_numpy bitrate capacity_t) throughput bitrate =
        Ok quotient /\
      nth i (res_psnr res) 0 = psnr_value quotient /\
      nth i (res_psnr res) 0 <= 10 * log10 1.05.
Proof.
  intros Hv Hrng. eexists. split; [apply simulate_valid; assumption | ].
  destruct Hv as (Hbw & Hp & Hb & Hn).
  assert (Hc : 0 < capacity_value bw snr_db)
    by (apply capacity_value_pos; exact Hbw).
  intros i Hi capacity_t throughput quotient.
  pose proof (ratio_at_bounds rng bitrate _ i Hc Hb Hrng) as Hr.
  fold throughput in Hr.
  pose proof (mse_quotient_ge throughput bitrate Hr) as Hq.
  pose proof (mse_value_unclamped throughput bitrate Hr) as Hm.
  unfold mse_quotient in Hq, Hm. fold quotient in Hq, Hm.
  pose proof mse_clamp_inactive as H1.
  cbn [closed_results res_throughput res_psnr].
  rewrite !nth_map_seq by exact Hi.
  unfold psnr_at. fold throughput. rewrite Hm.
  repeat split; try lra.
  - unfold Rmax. destruct (Rle_dec 1 quotient); lra.
  - rewrite mse_of_ok by lra. rewrite Hm. reflexivity.
  - unfold quotient. rewrite psnr_value_quotient by lra.
    apply Rmult_le_compat_l; [lra | apply log10_monotone; lra].
Qed.

Lemma mse_clamp_never_active_witness :
  exists res : results,
    simulate_cross_layer (constant_draws (1 / 4)) 1 0 1 1 1 = Ok res /\
    nth 0 (res_psnr res) 0 <= 10 * log10 1.05.
Proof.
  destruct (mse_clamp_never_active (constant_draws (1 / 4)) 1 0 1 1 1)
    as (res & Hres & Hframes).
  - unfold valid_config. repeat split; try lra; lia.
  - apply constant_draws_in_unit. lra.
  - exists res. split; [exact Hres | ].
    destruct (Hframes 0%nat) as (_ & _ & _ & _ & _ & _ & _ & Hpsnr).
    + change (Z.to_nat 1) with 1%nat. lia.
    + exact Hpsnr.
Defined.

(** * Lines 27 and 28 in binary64 *)

(** ** The power and the sum *)

Lemma Rpower_10_nat (n : nat) : Rpower 10 (INR n) = IZR (10 ^ Z.of_nat n).
Proof. rewrite Rpower_pow by lra. apply pow_IZR. Qed.

Lemma binary64_overflow_IZR : binary64_overflow = IZR (2 ^ 1024 - 2 ^ 970).
Proof.
  unfold binary64_overflow. rewrite minus_IZR.
  rewrite (pow_IZR 2 1024), (pow_IZR 2 970). reflexivity.
Qed.

Lemma pow10_300_in_range : Rpower 10 300 < binary64_overflow.
Proof.
  replace 300 with (INR 300) by (rewrite INR_IZR_INZ; reflexivity).
  rewrite Rpower_10_nat, binary64_overflow_IZR.
  apply IZR_lt. vm_compute. reflexivity.
Qed.

Lemma pow10_310_out_of_range : binary64_overflow <= Rpower 10 310.
Proof.
  replace 310 with (INR 310) by (rewrite INR_IZR_INZ; reflexivity).
  rewrite Rpower_10_nat, binary64_overflow_IZR.
  apply IZR_le. vm_compute. discriminate.
Qed.

Lemma pow10_minus_15_not_absorbed : binary64_half_epsilon < Rpower 10 (-15).
Proof.
  replace (-15) with (- INR 15) by (rewrite INR_IZR_INZ; simpl; lra).
  rewrite Rpower_Ropp, Rpower_10_nat. unfold binary64_half_epsilon.
  rewrite (pow_IZR 2 53).
  apply Rinv_lt_contravar.
  - apply Rmult_lt_0_compat; apply IZR_lt; vm_compute; reflexivity.
  - apply IZR_lt. vm_compute. reflexivity.
Qed.

Lemma pow10_minus_16_absorbed : Rpower 10 (-16) <= binary64_half_epsilon.
Proof.
  replace (-16) with (- INR 16) by (rewrite INR_IZR_INZ; simpl; lra).
  rewrite Rpower_Ropp, Rpower_10_nat. unfold binary64_half_epsilon.
  rewrite (pow_IZR 2 53).
  apply Rinv_le_contravar.
  - apply IZR_lt. vm_compute. reflexivity.
  - apply IZR_le. vm_compute. discriminate.
Qed.

Lemma py_pow10_ok (y : R) : y <= 300 -> py_pow10 y = Ok (Rpower 10 y).
Proof.
  intros Hy. unfold py_pow10.
  destruct (Rle_dec binary64_overflow (Rpower 10 y)) as [Hover | _];
    [ | reflexivity].
  exfalso.
  assert (Hle : Rpower 10 y <= Rpower 10 300) by (apply Rle_Rpower; lra).
  pose proof pow10_300_in_range. lra.
Qed.

Lemma py_pow10_overflow (y : R) :
  310 <= y -> py_pow10 y = Raise OverflowError.
Proof.
  intros Hy. unfold py_pow10.
  destruct (Rle_dec binary64_overflow (Rpower 10 y)) as [_ | Hin];
    [reflexivity | ].
  exfalso. apply Hin.
  assert (Hle : Rpower 10 310 <= Rpower 10 y) by (apply Rle_Rpower; lra).
  pose proof pow10_310_out_of_range. lra.
Qed.

Lemma binary64_one_plus_exact (y : R) :
  -15 <= y -> binary64_one_plus (Rpower 10 y) = 1 + Rpower 10 y.
Proof.
  intros Hy. unfold binary64_one_plus.
  destruct (Rle_dec (Rpower 10 y) binary64_half_epsilon) as [Habs | _];
    [ | reflexivity].
  exfalso.
  assert (Hle : Rpower 10 (-15) <= Rpower 10 y) by (apply Rle_Rpower; lra).
  pose proof pow10_minus_15_not_absorbed. lra.
Qed.

Lemma binary64_one_plus_absorbs (y : R) :
  y <= -16 -> binary64_one_plus (Rpower 10 y) = 1.
Proof.
  intros Hy. unfold binary64_one_plus.
  destruct (Rle_dec (Rpower 10 y) binary64_half_epsilon) as [_ | Hn];
    [reflexivity | ].
  exfalso. apply Hn.
  assert (Hle : Rpower 10 y <= Rpower 10 (-16)) by (apply Rle_Rpower; lra).
  pose proof pow10_minus_16_absorbed. lra.
Qed.

Lemma binary64_one_plus_ge_1 (x : R) : 0 < x -> 1 <= binary64_one_plus x.
Proof.
  intros Hx. unfold binary64_one_plus.
  destruct (Rle_dec x binary64_half_epsilon); lra.
Qed.

(** ** The capacity *)

(** Between -150 and 3000 dB the two embeddings of lines 27 and 28 agree. *)
Lemma shannon_capacity_binary64_exact (bw snr_db : R) :
  -150 <= snr_db <= 3000 ->
  shannon_capacity_binary64 bw snr_db = Ok (capacity_value bw snr_db).
Proof.
  intros [Hlo Hhi]. unfold shannon_capacity_binary64.
  rewrite py_pow10_ok by lra. cbn [bind].
  rewrite binary64_one_plus_exact by lra.
  pose proof (snr_lin_pos snr_db) as Hs.
  unfold np_log2.
  destruct (Rlt_dec 0 (1 + Rpower 10 (snr_db / 10))) as [_ | Hn]; [ | lra].
  reflexivity.
Qed.

(** Up to 3000 dB line 27 does not overflow, and the capacity is a number. *)
Lemma shannon_capacity_binary64_defined (bw snr_db : R) :
  snr_db <= 3000 -> exists c : R, shannon_capacity_binary64 bw snr_db = Ok c.
Proof.
  intros Hhi. unfold shannon_capacity_binary64.
  rewrite py_pow10_ok by lra. cbn [bind].
  pose proof (binary64_one_plus_ge_1 _ (snr_lin_pos snr_db)) as H1.
  unfold np_log2.
  destruct (Rlt_dec 0 (binary64_one_plus (Rpower 10 (snr_db / 10))))
    as [_ | Hn]; [ | lra].
  eexists. reflexivity.
Qed.

(** From 3100 dB on line 27 raises. *)
Lemma shannon_capacity_binary64_overflow (bw snr_db : R) :
  3100 <= snr_db -> shannon_capacity_binary64 bw snr_db = Raise OverflowError.
Proof.
  intros Hs. unfold shannon_capacity_binary64.
  rewrite py_pow10_overflow by lra. reflexivity.
Qed.

(** At -160 dB and below [1 + snr_lin] is [1.0] and the capacity is [0.0]. *)
Lemma shannon_capacity_binary64_absorbed (bw snr_db : R) :
  snr_db <= -160 -> shannon_capacity_binary64 bw snr_db = Ok 0.
Proof.
  intros Hs. unfold shannon_capacity_binary64.
  rewrite py_pow10_ok by lra. cbn [bind].
  rewrite binary64_one_plus_absorbs by lra.
  unfold np_log2.
  destruct (Rlt_dec 0 1) as [_ | Hn]; [ | lra].
  cbn [bind]. f_equal. rewrite ln_1. unfold Rdiv. lra.
Qed.

Lemma simulate_cross_layer_binary64_exact (rng : random_source)
    (bw snr_db pkt_size bitrate : R) (total_frames : Z) :
  -150 <= snr_db <= 3000 ->
  simulate_cross_layer_binary64 rng bw snr_db pkt_size bitrate total_frames =
  simulate_cross_layer rng bw snr_db pkt_size bitrate total_frames.
Proof.
  intros Hs. unfold simulate_cross_layer_binary64, simulate_cross_layer.
  rewrite shannon_capacity_binary64_exact by exact Hs.
  rewrite run_frames_unfold. reflexivity.
Qed.

(** ** A capacity of zero *)

Lemma range_first (n : Z) :
  (0 < n)%Z -> exists ts : list Z, range n = 0%Z :: ts.
Proof.
  intros Hn. rewrite range_to_nat.
  destruct (Z.to_nat n) as [| k] eqn:Hk; [lia | ].
  rewrite range_of_nat. cbn [seq map]. eexists. reflexivity.
Qed.

(** The first frame on a capacity of zero: lines 36 to 53 go through, and
    line 56 divides by zero. *)
Lemma zero_capacity_first_frame (rng : random_source)
    (pkt_size bitrate : R) (t : Z) :
  pkt_size <> 0 ->
  let capacity_t := capacity_t_of 0 (rng 0%nat) in
  capacity_t = 0 /\
  cwnd_of capacity_t pkt_size = Ok 1%Z /\
  finite
    (np_div
       (0 + queue_increment (adaptive_bitrate_of bitrate capacity_t)
              capacity_t)
       (capacity_t + 1e-9)) = Ok 0 /\
  np_div (pkt_size * 8) capacity_t = Inf /\
  frame rng pkt_size bitrate 0 power_tx t initial_state = NonFinite.
Proof.
  intros Hp capacity_t.
  assert (Hct : capacity_t = 0) by (unfold capacity_t, capacity_t_of; lra).
  assert (Hcwnd : cwnd_of capacity_t pkt_size = Ok 1%Z).
  { rewrite Hct. unfold cwnd_of. rewrite np_div_fin by lra.
    cbn [py_int bind]. f_equal.
    replace (0 / (pkt_size * 1024 * 8)) with 0 by (unfold Rdiv; lra).
    unfold Ztrunc. destruct (Rlt_dec 0 0) as [Hlt | _]; [lra | ].
    rewrite (ZfloorZ 0). reflexivity. }
  assert (Hq : queue_increment (adaptive_bitrate_of bitrate capacity_t)
                 capacity_t = 0).
  { rewrite Hct. unfold queue_increment. apply py_max_left.
    pose proof (py_min_le_r (bitrate * 1e6) (0 * 0.9)) as Hm.
    unfold adaptive_bitrate_of. lra. }
  assert (Hdelay : finite
            (np_div
               (0 + queue_increment (adaptive_bitrate_of bitrate capacity_t)
                      capacity_t)
               (capacity_t + 1e-9)) = Ok 0).
  { rewrite Hq, Hct. rewrite np_div_fin by lra. cbn [finite]. f_equal.
    unfold Rdiv. lra. }
  assert (Hinf : np_div (pkt_size * 8) capacity_t = Inf).
  { rewrite Hct. unfold np_div.
    destruct (Req_dec_T 0 0) as [_ | Hne]; [ | contradiction].
    destruct (Req_dec_T (pkt_size * 8) 0) as [Hz | _]; [exfalso; lra | ].
    reflexivity. }
  repeat split; try assumption.
  rewrite frame_cwnd. cbn [initial_state rng_pos]. fold capacity_t.
  rewrite Hcwnd. cbn [bind]. unfold frame_no_cwnd.
  cbn [initial_state rng_pos queue_length]. fold capacity_t.
  rewrite Hdelay. cbn [bind]. rewrite Hinf. reflexivity.
Qed.

Lemma zero_capacity_run (rng : random_source)
    (pkt_size bitrate : R) (total_frames : Z) :
  pkt_size <> 0 ->
  (0 < total_frames)%Z ->
  for_each (frame rng pkt_size bitrate 0 power_tx)
    (range total_frames) initial_state = NonFinite.
Proof.
  intros Hp Hn. destruct (range_first total_frames Hn) as (ts & ->).
  cbn [for_each].
  destruct (zero_capacity_first_frame rng pkt_size bitrate 0%Z Hp)
    as (_ & _ & _ & _ & ->).
  reflexivity.
Qed.

(** ** C1: a frame count of zero or less *)

(** C1, as amended.  The function validates nothing.  With
    [total_frames <= 0] and an SNR of at most 3000 dB, so that line 27 does
    not overflow, whatever the other arguments are, the loop body never
    runs, no error is raised, and the result returned has no frame record. *)
Theorem simulate_nonpositive_frames (rng : random_source)
    (bw snr_db pkt_size bitrate : R) (total_frames : Z) :
  (total_frames <= 0)%Z ->
  snr_db <= 3000 ->
  simulate_cross_layer_binary64 rng bw snr_db pkt_size bitrate total_frames =
    Ok empty_results /\
  simulate_cross_layer rng bw snr_db pkt_size bitrate total_frames =
    Ok empty_results.
Proof.
  intros Hn Hs.
  split; [ | apply simulate_nonpositive_frames_exact; exact Hn].
  unfold simulate_cross_layer_binary64.
  destruct (shannon_capacity_binary64_defined bw snr_db Hs) as (c & ->).
  cbn [bind]. rewrite (range_nonpos total_frames Hn). reflexivity.
Qed.

Lemma simulate_nonpositive_frames_witness :
  simulate_cross_layer_binary64 (constant_draws 0) 0 (-400) 0 0 (-3) =
    Ok empty_results /\
  simulate_cross_layer (constant_draws 0) 0 (-400) 0 0 (-3) =
    Ok empty_results.
Proof.
  apply (simulate_nonpositive_frames (constant_draws 0) 0 (-400) 0 0 (-3)).
  - lia.
  - lra.
Defined.

(** Above the range, line 27 raises before the frame count is looked at. *)
Lemma simulate_overflowing_snr (rng : random_source)
    (bw snr_db pkt_size bitrate : R) (total_frames : Z) :
  3100 <= snr_db ->
  simulate_cross_layer_binary64 rng bw snr_db pkt_size bitrate total_frames =
  Raise OverflowError.
Proof.
  intros Hs. unfold simulate_cross_layer_binary64.
  rewrite shannon_capacity_binary64_overflow by exact Hs. reflexivity.
Qed.

(** ** C5: every frame is well defined, within the range of binary64 *)

(** C5, at two concrete inputs, both valid configurations.  At 4000 dB line
    27 raises [OverflowError].  At -170 dB [1 + snr_lin] is [1.0], the
    capacity is [0.0], and the energy of the only frame is the quotient of
    40 by zero, an infinity: no result made of finite values is returned. *)
Lemma frames_fail_outside_snr_range :
  valid_config 10 5 8 1 /\
  draws_in_unit (constant_draws (1 / 2)) /\
  simulate_cross_layer_binary64 (constant_draws (1 / 2)) 10 4000 5 8 1 =
    Raise OverflowError /\
  shannon_capacity_binary64 10 (-170) = Ok 0 /\
  np_div (5 * 8) (capacity_t_of 0 (constant_draws (1 / 2) 0%nat)) = Inf /\
  (forall res : results,
     simulate_cross_layer_binary64 (constant_draws (1 / 2)) 10 (-170) 5 8 1 <>
     Ok res).
Proof.
  split; [unfold valid_config; repeat split; try lra; lia | ].
  split; [apply constant_draws_in_unit; lra | ].
  split; [apply simulate_overflowing_snr; lra | ].
  assert (Hcap : shannon_capacity_binary64 10 (-170) = Ok 0)
    by (apply shannon_capacity_binary64_absorbed; lra).
  split; [exact Hcap | ].
  split.
  - destruct (zero_capacity_first_frame (constant_draws (1 / 2)) 5 8 0%Z)
      as (_ & _ & _ & Hinf & _); [lra | exact Hinf].
  - intros res. unfold simulate_cross_layer_binary64.
    rewrite Hcap. cbn [bind].
    rewrite zero_capacity_run by (lra || lia).
    discriminate.
Qed.

(** C5, as amended.  On a valid configuration within [binary64_range],
    whatever the draws in [[0, 1)], the run raises nothing and produces no
    infinity and no nan: line 27 does not overflow, no divisor is zero (the
    packet size in bits, [capacity_t + 1e-9], [capacity_t], the bitrate in
    bits per second, the ratio plus [0.1], the square root of [mse]), and
    the arguments of the logarithms and of the square root are positive.
    Every delay, energy, bitrate and throughput recorded is non-negative,
    and every PSNR lies between [10 * log10 0.1] and [10 * log10 1.05]. *)
Theorem frames_are_well_defined (rng : random_source)
    (bw snr_db pkt_size bitrate : R) (total_frames : Z) :
  valid_config bw pkt_size bitrate total_frames ->
  binary64_range bw snr_db pkt_size ->
  draws_in_unit rng ->
  (exists res : results,
     simulate_cross_layer_binary64 rng bw snr_db pkt_size bitrate total_frames
       = Ok res /\
     simulate_cross_layer rng bw snr_db pkt_size bitrate total_frames = Ok res /\
     length (res_psnr res) = Z.to_nat total_frames /\
     Forall (fun delay => 0 <= delay) (res_delay res) /\
     Forall (fun energy => 0 <= energy) (res_energy res) /\
     Forall (fun b => 0 <= b) (res_bitrate res) /\
     Forall (fun thr => 0 <= thr) (res_throughput res) /\
     Forall (fun psnr => 10 * log10 0.1 <= psnr <= 10 * log10 1.05)
       (res_psnr res)) /\
  py_pow10 (snr_db / 10) = Ok (Rpower 10 (snr_db / 10)) /\
  binary64_one_plus (Rpower 10 (snr_db / 10)) = 1 + Rpower 10 (snr_db / 10) /\
  0 < 1 + Rpower 10 (snr_db / 10) /\
  0 < capacity_value bw snr_db /\
  pkt_size * 1024 * 8 <> 0 /\
  bitrate * 1e6 <> 0 /\
  (forall i : nat,
     let capacity_t := capacity_t_at rng (capacity_value bw snr_db) i in
     let throughput := throughput_at rng bitrate (capacity_value bw snr_db) i in
     let mse := mse_value throughput bitrate in
     capacity_t + 1e-9 <> 0 /\
     capacity_t <> 0 /\
     throughput / (bitrate * 1e6) + 0.1 <> 0 /\
     0 < mse /\
     sqrt mse <> 0 /\
     0 < 255 / sqrt mse).
Proof.
  intros Hv (Hs & _ & _) Hrng.
  destruct (frames_are_well_defined_exact rng bw snr_db pkt_size bitrate
              total_frames Hv Hrng)
    as ((res & Hres & Hlen & Hd & He & Hb & Ht & Hp) & H1 & Hpkt & Hbit & Hi).
  split.
  - exists res.
    rewrite simulate_cross_layer_binary64_exact by exact Hs.
    repeat split; assumption.
  - split; [apply py_pow10_ok; lra | ].
    split; [apply binary64_one_plus_exact; lra | ].
    split; [exact H1 | ].
    split; [apply capacity_value_pos; apply Hv | ].
    repeat split; try assumption; apply Hi.
Qed.

Lemma frames_are_well_defined_witness :
  exists res : results,
    simulate_cross_layer_binary64 (constant_draws 0) 1 0 1 1 1 = Ok res /\
    Forall (fun energy => 0 <= energy) (res_energy res).
Proof.
  destruct (frames_are_well_defined (constant_draws 0) 1 0 1 1 1)
    as ((res & Hres & _ & _ & _ & Henergy & _) & _).
  - unfold valid_config. repeat split; try lra; lia.
  - unfold binary64_range. lra.
  - apply constant_draws_in_unit. lra.
  - exists res. split; [exact Hres | exact Henergy].
Defined.

(** * Further properties of the function *)

(** ** The shape of a result and the effect of the frame count *)

Lemma firstn_map_seq {A : Type} (f : nat -> A) (n m : nat) :
  (n <= m)%nat -> firstn n (map f (seq 0 m)) = map f (seq 0 n).
Proof.
  intros Hnm. replace m with (n + (m - n))%nat by lia.
  rewrite seq_app, map_app, firstn_app.
  rewrite length_map, length_seq, Nat.sub_diag. cbn [firstn].
  rewrite app_nil_r.
  rewrite <- (length_seq n 0) at 1. rewrite <- (length_map f (seq 0 n)).
  apply firstn_all.
Qed.



(** X2.  Frames do not depend on the frames after them: when a run of
    [m] frames returns, the run of [n <= m] frames on the same arguments and
    draws returns too, and each of its series is the first [n] entries of
    the longer run's. *)
Theorem shorter_run_is_a_prefix (rng : random_source)
    (bw snr_db pkt_size bitrate : R) (n m : Z) (res_m : results) :
  (n <= m)%Z ->
  simulate_cross_layer rng bw snr_db pkt_size bitrate m = Ok res_m ->
  exists res_n : results,
    simulate_cross_layer rng bw snr_db pkt_size bitrate n = Ok res_n /\
    res_time res_n = firstn (Z.to_nat n) (res_time res_m) /\
    res_bitrate res_n = firstn (Z.to_nat n) (res_bitrate res_m) /\
    res_psnr res_n = firstn (Z.to_nat n) (res_psnr res_m) /\
    res_delay res_n = firstn (Z.to_nat n) (res_delay res_m) /\
    res_energy res_n = firstn (Z.to_nat n) (res_energy res_m) /\
    res_throughput res_n = firstn (Z.to_nat n) (res_throughput res_m).
Proof.
  intros Hnm Hm.
  pose proof (simulate_closed _ _ _ _ _ _ _ Hm) as Hclosed.
  assert (Hle : (Z.to_nat n <= Z.to_nat m)%nat) by lia.
  unfold simulate_cross_layer in Hm.
  apply bind_ok_inv in Hm as (st & Hst & _).
  rewrite range_to_nat in Hst.
  pose proof (run_frames_prefix rng bw snr_db pkt_size bitrate
                (Z.to_nat m) (Z.to_nat n) st Hle Hst) as Hprefix.
  eexists. split.
  - unfold simulate_cross_layer. rewrite (range_to_nat n), Hprefix.
    reflexivity.
  - subst res_m.
    cbn [closed_state st_results closed_results res_time res_bitrate
         res_psnr res_delay res_energy res_throughput].
    rewrite !firstn_map_seq by exact Hle.
    repeat split; reflexivity.
Qed.

Lemma shorter_run_is_a_prefix_witness :
  exists res_m res_n : results,
    simulate_cross_layer (constant_draws (1 / 2)) 10 15 5 8 50 = Ok res_m /\
    simulate_cross_layer (constant_draws (1 / 2)) 10 15 5 8 20 = Ok res_n /\
    res_psnr res_n = firstn 20 (res_psnr res_m).
Proof.
  assert (H : simulate_cross_layer (constant_draws (1 / 2)) 10 15 5 8 50 =
              Ok (closed_results (constant_draws (1 / 2)) 5 8
                    (capacity_value 10 15) (Z.to_nat 50))).
  { apply simulate_total; try lra. apply constant_draws_in_unit. lra. }
  destruct (shorter_run_is_a_prefix (constant_draws (1 / 2)) 10 15 5 8
              20 50 _ ltac:(lia) H)
    as (res_n & Hn & _ & _ & Hp & _).
  eexists. exists res_n. split; [exact H | ]. split; [exact Hn | exact Hp].
Defined.

(** ** Arguments the function does not reject *)

Lemma capacity_value_nonzero (bw snr_db : R) :
  bw <> 0 -> capacity_value bw snr_db <> 0.
Proof.
  intros Hbw. unfold capacity_value.
  pose proof (snr_lin_pos snr_db) as Hs.
  assert (Hl : 0 < ln (1 + Rpower 10 (snr_db / 10))).
  { rewrite <- ln_1. apply ln_increasing; lra. }
  pose proof ln2_pos as H2.
  apply Rmult_integral_contrapositive_currified; [lra | ].
  apply Rgt_not_eq, Rdiv_lt_0_compat; assumption.
Qed.

Lemma capacity_value_zero_bw (snr_db : R) : capacity_value 0 snr_db = 0.
Proof. unfold capacity_value. lra. Qed.

Lemma first_frame (rng : random_source)
    (bw snr_db pkt_size bitrate : R) (total_frames : Z) :
  (0 < total_frames)%Z ->
  exists ts : list Z,
    simulate_cross_layer rng bw snr_db pkt_size bitrate total_frames =
    (st <- (st1 <- frame rng pkt_size bitrate (capacity_value bw snr_db)
                     power_tx 0%Z initial_state ;;
            for_each (frame rng pkt_size bitrate (capacity_value bw snr_db)
                        power_tx) ts st1) ;;
     Ok (st_results st)).
Proof.
  intros Hn. unfold simulate_cross_layer. rewrite run_frames_unfold.
  rewrite range_to_nat.
  destruct (Z.to_nat total_frames) as [| k] eqn:Hk; [lia | ].
  rewrite range_of_nat. cbn [seq map for_each].
  eexists. reflexivity.
Qed.

(** X3.  A packet size of zero is not rejected: the first frame divides the
    capacity by zero at line 40 and [int] raises, [OverflowError] on the
    infinity that a bandwidth other than zero gives, [ValueError] on the
    [nan] that a bandwidth of zero gives. *)
Theorem zero_packet_size_raises (rng : random_source)
    (bw snr_db bitrate : R) (total_frames : Z) :
  (0 < total_frames)%Z ->
  draws_in_unit rng ->
  (bw <> 0 ->
   simulate_cross_layer rng bw snr_db 0 bitrate total_frames =
   Raise OverflowError) /\
  (bw = 0 ->
   simulate_cross_layer rng bw snr_db 0 bitrate total_frames =
   Raise ValueError).
Proof.
  intros Hn Hrng.
  destruct (first_frame rng bw snr_db 0 bitrate total_frames Hn)
    as (ts & ->).
  rewrite frame_cwnd. unfold cwnd_of, np_div.
  destruct (Req_dec_T (0 * 1024 * 8) 0) as [_ | Hne]; [ | exfalso; lra].
  cbn [initial_state rng_pos].
  pose proof (random_uniform_bounds (rng 0%nat) (Hrng 0%nat)) as Hu.
  split; intros Hbw.
  - pose proof (capacity_value_nonzero bw snr_db Hbw) as Hc.
    destruct (Req_dec_T (capacity_t_of (capacity_value bw snr_db) (rng 0%nat)) 0)
      as [Hz | _]; [ | reflexivity].
    exfalso. unfold capacity_t_of in Hz.
    apply Rmult_integral in Hz. destruct Hz; [contradiction | lra].
  - subst bw.
    destruct (Req_dec_T (capacity_t_of (capacity_value 0 snr_db) (rng 0%nat)) 0)
      as [_ | Hnz]; [reflexivity | ].
    exfalso. apply Hnz. unfold capacity_t_of.
    rewrite capacity_value_zero_bw. lra.
Qed.

Lemma zero_packet_size_raises_witness :
  simulate_cross_layer (constant_draws (1 / 2)) 10 15 0 8 50 =
  Raise OverflowError.
Proof.
  apply (zero_packet_size_raises (constant_draws (1 / 2)) 10 15 8 50).
  - lia.
  - apply constant_draws_in_unit. lra.
  - lra.
Defined.

(** X4.  A bitrate of zero is not rejected either: with a positive
    bandwidth and a packet size other than zero, the first frame gets as far
    as line 59, where the throughput, a Python float equal to zero, is
    divided by [bitrate * 1e6 = 0]: [ZeroDivisionError]. *)
Theorem zero_bitrate_raises (rng : random_source)
    (bw snr_db pkt_size : R) (total_frames : Z) :
  0 < bw ->
  pkt_size <> 0 ->
  (0 < total_frames)%Z ->
  draws_in_unit rng ->
  simulate_cross_layer rng bw snr_db pkt_size 0 total_frames =
  Raise ZeroDivisionError.
Proof.
  intros Hbw Hp Hn Hrng.
  destruct (first_frame rng bw snr_db pkt_size 0 total_frames Hn)
    as (ts & ->).
  rewrite frame_cwnd.
  destruct (cwnd_of_ok
              (capacity_t_of (capacity_value bw snr_db)
                 (rng (rng_pos initial_state))) pkt_size Hp) as (w & -> & _).
  cbn [bind]. unfold frame_no_cwnd.
  cbn [initial_state rng_pos queue_length].
  pose proof (capacity_t_pos _ _ (capacity_value_pos bw snr_db Hbw)
                (Hrng 0%nat)) as Hct.
  rewrite np_div_fin by lra. cbn [finite bind].
  rewrite np_div_fin by lra. cbn [finite bind].
  unfold mse_of, adaptive_is_numpy.
  destruct (Rlt_dec
              (capacity_t_of (capacity_value bw snr_db) (rng 0%nat) * 0.9)
              (0 * 1e6)) as [Hlt | _]; [exfalso; lra | ].
  unfold div_as, py_div.
  destruct (Req_dec_T (0 * 1e6) 0) as [_ | Hne]; [ | exfalso; lra].
  reflexivity.
Qed.

Lemma zero_bitrate_raises_witness :
  simulate_cross_layer (constant_draws (1 / 2)) 10 15 5 0 50 =
  Raise ZeroDivisionError.
Proof.
  apply (zero_bitrate_raises (constant_draws (1 / 2)) 10 15 5 50).
  - lra.
  - lra.
  - lia.
  - apply constant_draws_in_unit. lra.
Defined.

(** X5.  A bandwidth of zero is not rejected.  With an SNR of at most 3000
    dB the capacity is zero; in the first frame line 40 gives a window of 1
    and line 53 a delay of 0 (the [1e-9] keeps its divisor from zero), and
    the energy of line 56 divides [pkt_size * 8] by zero, which numpy
    answers with an infinity.  No result made of finite values is returned.
    What Python does after line 56 is not stated. *)
Theorem zero_bandwidth_energy_not_finite (rng : random_source)
    (snr_db pkt_size bitrate : R) (total_frames : Z) :
  pkt_size <> 0 ->
  (0 < total_frames)%Z ->
  snr_db <= 3000 ->
  let capacity_t := capacity_t_of 0 (rng 0%nat) in
  shannon_capacity_binary64 0 snr_db = Ok 0 /\
  capacity_t = 0 /\
  cwnd_of capacity_t pkt_size = Ok 1%Z /\
  finite
    (np_div
       (0 + queue_increment (adaptive_bitrate_of bitrate capacity_t)
              capacity_t)
       (capacity_t + 1e-9)) = Ok 0 /\
  np_div (pkt_size * 8) capacity_t = Inf /\
  (forall res : results,
     simulate_cross_layer_binary64 rng 0 snr_db pkt_size bitrate total_frames
     <> Ok res).
Proof.
  intros Hp Hn Hs capacity_t.
  assert (Hcap : shannon_capacity_binary64 0 snr_db = Ok 0).
  { destruct (shannon_capacity_binary64_defined 0 snr_db Hs) as (c & Hc).
    rewrite Hc. f_equal.
    unfold shannon_capacity_binary64 in Hc.
    apply bind_ok_inv in Hc as (x & _ & Hc).
    apply bind_ok_inv in Hc as (l & _ & Hc).
    injection Hc as <-. lra. }
  destruct (zero_capacity_first_frame rng pkt_size bitrate 0%Z Hp)
    as (Hct & Hcwnd & Hdelay & Hinf & _).
  repeat split; try assumption.
  intros res. unfold simulate_cross_layer_binary64.
  rewrite Hcap. cbn [bind].
  rewrite zero_capacity_run by assumption.
  discriminate.
Qed.

Lemma zero_bandwidth_energy_not_finite_witness :
  np_div (5 * 8) (capacity_t_of 0 (constant_draws (1 / 2) 0%nat)) = Inf /\
  (forall res : results,
     simulate_cross_layer_binary64 (constant_draws (1 / 2)) 0 15 5 8 50 <>
     Ok res).
Proof.
  destruct (zero_bandwidth_energy_not_finite
              (constant_draws (1 / 2)) 15 5 8 50)
    as (_ & _ & _ & _ & Hinf & Hno).
  - lra.
  - lia.
  - lra.
  - split; [exact Hinf | exact Hno].
Defined.

(** ** The two regimes of the rate adaptation *)

Lemma capacity_t_at_bounds (rng : random_source) (capacity : R) (i : nat) :
  0 < capacity -> draws_in_unit rng ->
  0.8 * capacity <= capacity_t_at rng capacity i < 1.2 * capacity.
Proof.
  intros Hc Hrng. unfold capacity_t_at, capacity_t_of.
  pose proof (random_uniform_bounds _ (Hrng (2 * i)%nat)) as Hu.
  split; nra.
Qed.

Lemma scaled_ratio (x k : R) : x <> 0 -> x * k / x = k.
Proof. intros Hx. field. exact Hx. Qed.

Lemma div_le_of_le_mul (a b c : R) : 0 < b -> a <= c * b -> a / b <= c.
Proof.
  intros Hb H. apply (Rmult_le_reg_r b); [exact Hb | ].
  unfold Rdiv. rewrite Rmult_assoc, Rinv_l by lra. lra.
Qed.

Lemma lt_div_of_mul_lt (a b c : R) : 0 < b -> c * b < a -> c < a / b.
Proof.
  intros Hb H. apply (Rmult_lt_reg_r b); [exact Hb | ].
  unfold Rdiv. rewrite Rmult_assoc, Rinv_l by lra. lra.
Qed.

Lemma psnr_at_closed (rng : random_source) (bitrate capacity : R) (i : nat) :
  0 < capacity -> 0 < bitrate -> draws_in_unit rng ->
  psnr_at rng bitrate capacity i =
  10 * log10 (throughput_at rng bitrate capacity i / (bitrate * 1e6) + 0.1).
Proof.
  intros Hc Hb Hrng.
  pose proof (ratio_at_bounds rng bitrate capacity i Hc Hb Hrng) as Hr.
  unfold psnr_at. rewrite mse_value_unclamped by exact Hr.
  unfold mse_quotient. apply psnr_value_quotient. lra.
Qed.

(** X6.  When the target bitrate is at most 72% of the capacity (90% of the
    lowest capacity a frame can draw), the capacity never binds: every frame
    records the target bitrate itself, a throughput of 95% or 85.5% of it,
    and one of the two PSNR values [10 * log10 1.05] and
    [10 * log10 0.955]. *)
Theorem target_below_capacity (rng : random_source)
    (bw snr_db pkt_size bitrate : R) (total_frames : Z) :
  valid_config bw pkt_size bitrate total_frames ->
  draws_in_unit rng ->
  bitrate * 1e6 <= 0.72 * capacity_value bw snr_db ->
  exists res : results,
    simulate_cross_layer rng bw snr_db pkt_size bitrate total_frames = Ok res /\
    forall i : nat,
      (i < Z.to_nat total_frames)%nat ->
      nth i (res_bitrate res) 0 = bitrate /\
      (nth i (res_throughput res) 0 = 0.95 * bitrate /\
       nth i (res_psnr res) 0 = 10 * log10 1.05 \/
       nth i (res_throughput res) 0 = 0.855 * bitrate /\
       nth i (res_psnr res) 0 = 10 * log10 0.955).
Proof.
  intros Hv Hrng Hlow. eexists. split; [apply simulate_valid; assumption | ].
  destruct Hv as (Hbw & Hp & Hb & Hn).
  assert (Hc : 0 < capacity_value bw snr_db)
    by (apply capacity_value_pos; exact Hbw).
  intros i Hi.
  cbn [closed_results res_bitrate res_throughput res_psnr].
  rewrite !nth_map_seq by exact Hi.
  rewrite psnr_at_closed by assumption.
  pose proof (capacity_t_at_bounds rng _ i Hc Hrng) as Hct.
  assert (Had : adaptive_at rng bitrate (capacity_value bw snr_db) i =
                bitrate * 1e6).
  { unfold adaptive_at, adaptive_bitrate_of, py_min.
    destruct (Rlt_dec _ _) as [Hlt | _]; [exfalso; lra | reflexivity]. }
  unfold throughput_at, throughput_of, routing_eff. rewrite Had.
  assert (Hratio : forall k : R,
            bitrate * 1e6 * 0.95 * k / (bitrate * 1e6) = 0.95 * k).
  { intros k.
    replace (bitrate * 1e6 * 0.95 * k) with (bitrate * 1e6 * (0.95 * k))
      by lra.
    apply scaled_ratio. lra. }
  split; [lra | ].
  destruct (link_eff_cases (rng (S (2 * i)))) as [[_ ->] | [_ ->]];
    [left | right];
    (split; [lra | rewrite Hratio; f_equal; f_equal; lra]).
Qed.

Lemma target_below_capacity_witness :
  exists res : results,
    simulate_cross_layer (constant_draws (1 / 2)) 20 0 1 1 10 = Ok res /\
    nth 3 (res_bitrate res) 0 = 1.
Proof.
  destruct (target_below_capacity (constant_draws (1 / 2)) 20 0 1 1 10)
    as (res & Hres & Hframes).
  - unfold valid_config. repeat split; try lra; lia.
  - apply constant_draws_in_unit. lra.
  - unfold capacity_value.
    replace (0 / 10) with 0 by lra.
    rewrite Rpower_O by lra.
    replace (1 + 1) with 2 by lra.
    pose proof ln2_pos.
    replace (ln 2 / ln 2) with 1 by (field; lra). lra.
  - exists res. split; [exact Hres | ].
    apply (Hframes 3%nat). change (Z.to_nat 10) with 10%nat. lia.
Defined.

(** X7.  When the target bitrate is at least 108% of the capacity (90% of
    the highest capacity a frame can draw), the capacity always binds: every
    frame records 90% of its own capacity, which is below the target. *)
Theorem target_above_capacity (rng : random_source)
    (bw snr_db pkt_size bitrate : R) (total_frames : Z) :
  valid_config bw pkt_size bitrate total_frames ->
  draws_in_unit rng ->
  1.08 * capacity_value bw snr_db <= bitrate * 1e6 ->
  exists res : results,
    simulate_cross_layer rng bw snr_db pkt_size bitrate total_frames = Ok res /\
    forall i : nat,
      (i < Z.to_nat total_frames)%nat ->
      nth i (res_bitrate res) 0 =
        0.9 * capacity_t_at rng (capacity_value bw snr_db) i / 1e6 /\
      nth i (res_bitrate res) 0 < bitrate.
Proof.
  intros Hv Hrng Hhigh. eexists. split; [apply simulate_valid; assumption | ].
  destruct Hv as (Hbw & Hp & Hb & Hn).
  assert (Hc : 0 < capacity_value bw snr_db)
    by (apply capacity_value_pos; exact Hbw).
  intros i Hi.
  cbn [closed_results res_bitrate].
  rewrite !nth_map_seq by exact Hi.
  pose proof (capacity_t_at_bounds rng _ i Hc Hrng) as Hct.
  assert (Had : adaptive_at rng bitrate (capacity_value bw snr_db) i =
                0.9 * capacity_t_at rng (capacity_value bw snr_db) i).
  { unfold adaptive_at, adaptive_bitrate_of, py_min.
    destruct (Rlt_dec _ _) as [_ | Hge]; [lra | exfalso; lra]. }
  rewrite Had. split; [reflexivity | lra].
Qed.

Lemma target_above_capacity_witness :
  exists res : results,
    simulate_cross_layer (constant_draws (1 / 2)) 1 0 1 20 10 = Ok res /\
    nth 3 (res_bitrate res) 0 < 20.
Proof.
  destruct (target_above_capacity (constant_draws (1 / 2)) 1 0 1 20 10)
    as (res & Hres & Hframes).
  - unfold valid_config. repeat split; try lra; lia.
  - apply constant_draws_in_unit. lra.
  - unfold capacity_value.
    replace (0 / 10) with 0 by lra.
    rewrite Rpower_O by lra.
    replace (1 + 1) with 2 by lra.
    pose proof ln2_pos.
    replace (ln 2 / ln 2) with 1 by (field; lra). lra.
  - exists res. split; [exact Hres | ].
    apply (Hframes 3%nat). change (Z.to_nat 10) with 10%nat. lia.
Defined.

(** ** Energy and quality as functions of the other series *)

(** X8.  On a valid configuration the energy of every frame lies between
    two thirds of [pkt_size / capacity] (excluded) and [pkt_size / capacity]
    itself: it is [0.8 * pkt_size / capacity_t], and [capacity_t] stays
    within [[0.8, 1.2)] times the capacity. *)
Theorem energy_bounds (rng : random_source)
    (bw snr_db pkt_size bitrate : R) (total_frames : Z) :
  valid_config bw pkt_size bitrate total_frames ->
  draws_in_unit rng ->
  exists res : results,
    simulate_cross_layer rng bw snr_db pkt_size bitrate total_frames = Ok res /\
    forall i : nat,
      (i < Z.to_nat total_frames)%nat ->
      nth i (res_energy res) 0 =
        0.8 * pkt_size / capacity_t_at rng (capacity_value bw snr_db) i /\
      2 / 3 * (pkt_size / capacity_value bw snr_db) <
        nth i (res_energy res) 0 <= pkt_size / capacity_value bw snr_db.
Proof.
  intros Hv Hrng. eexists. split; [apply simulate_valid; assumption | ].
  destruct Hv as (Hbw & Hp & Hb & Hn).
  assert (Hc : 0 < capacity_value bw snr_db)
    by (apply capacity_value_pos; exact Hbw).
  intros i Hi.
  cbn [closed_results res_energy].
  rewrite !nth_map_seq by exact Hi.
  pose proof (capacity_t_at_bounds rng _ i Hc Hrng) as Hct.
  set (C := capacity_value bw snr_db) in *.
  set (ct := capacity_t_at rng C i) in *.
  assert (Hct0 : 0 < ct) by lra.
  unfold energy_at, power_tx. fold ct.
  set (r := pkt_size / C).
  assert (Hr : r * C = pkt_size).
  { unfold r, Rdiv. rewrite Rmult_assoc, Rinv_l by lra. lra. }
  assert (Hr0 : 0 < r) by (apply Rdiv_lt_0_compat; lra).
  assert (He : 0.1 * (pkt_size * 8 / ct) = 0.8 * pkt_size / ct)
    by (unfold Rdiv; lra).
  rewrite He. split; [reflexivity | ].
  split.
  - apply lt_div_of_mul_lt; [exact Hct0 | nra].
  - apply div_le_of_le_mul; [exact Hct0 | nra].
Qed.

Lemma energy_bounds_witness :
  exists res : results,
    simulate_cross_layer (constant_draws (1 / 2)) 10 15 5 8 50 = Ok res /\
    nth 7 (res_energy res) 0 <= 5 / capacity_value 10 15.
Proof.
  destruct (energy_bounds (constant_draws (1 / 2)) 10 15 5 8 50)
    as (res & Hres & Hframes).
  - unfold valid_config. repeat split; try lra; lia.
  - apply constant_draws_in_unit. lra.
  - exists res. split; [exact Hres | ].
    apply (Hframes 7%nat). change (Z.to_nat 50) with 50%nat. lia.
Defined.

(** X9.  On a valid configuration the PSNR series is a function of the
    throughput series: the PSNR of a frame is
    [10 * log10 (throughput / bitrate + 0.1)], with the throughput in Mbps
    as recorded and the bitrate the target in Mbps. *)
Theorem psnr_from_throughput (rng : random_source)
    (bw snr_db pkt_size bitrate : R) (total_frames : Z) :
  valid_config bw pkt_size bitrate total_frames ->
  draws_in_unit rng ->
  exists res : results,
    simulate_cross_layer rng bw snr_db pkt_size bitrate total_frames = Ok res /\
    forall i : nat,
      (i < Z.to_nat total_frames)%nat ->
      nth i (res_psnr res) 0 =
        10 * log10 (nth i (res_throughput res) 0 / bitrate + 0.1).
Proof.
  intros Hv Hrng. eexists. split; [apply simulate_valid; assumption | ].
  destruct Hv as (Hbw & Hp & Hb & Hn).
  assert (Hc : 0 < capacity_value bw snr_db)
    by (apply capacity_value_pos; exact Hbw).
  intros i Hi.
  cbn [closed_results res_throughput res_psnr].
  rewrite !nth_map_seq by exact Hi.
  rewrite psnr_at_closed by assumption.
  f_equal. f_equal. field. lra.
Qed.

Lemma psnr_from_throughput_witness :
  exists res : results,
    simulate_cross_layer (constant_draws (1 / 2)) 10 15 5 8 50 = Ok res /\
    nth 7 (res_psnr res) 0 =
      10 * log10 (nth 7 (res_throughput res) 0 / 8 + 0.1).
Proof.
  destruct (psnr_from_throughput (constant_draws (1 / 2)) 10 15 5 8 50)
    as (res & Hres & Hframes).
  - unfold valid_config. repeat split; try lra; lia.
  - apply constant_draws_in_unit. lra.
  - exists res. split; [exact Hres | ].
    apply (Hframes 7%nat). change (Z.to_nat 50) with 50%nat. lia.
Defined.

(** ** The capacity and the congestion window *)

Lemma log2_snr_monotone (s1 s2 : R) :
  s1 <= s2 ->
  0 < ln (1 + Rpower 10 (s1 / 10)) / ln 2 <=
      ln (1 + Rpower 10 (s2 / 10)) / ln 2.
Proof.
  intros Hs. pose proof ln2_pos as H2.
  pose proof (snr_lin_pos s1) as Hp1.
  assert (Hpow : Rpower 10 (s1 / 10) <= Rpower 10 (s2 / 10))
    by (apply Rle_Rpower; lra).
  split.
  - apply Rdiv_lt_0_compat; [ | exact H2].
    rewrite <- ln_1. apply ln_increasing; lra.
  - unfold Rdiv. apply Rmult_le_compat_r.
    + apply Rlt_le, Rinv_0_lt_compat, H2.
    + apply ln_monotone; lra.
Qed.

Lemma log2_snr_ge_1 (s : R) :
  0 <= s -> 1 <= ln (1 + Rpower 10 (s / 10)) / ln 2.
Proof.
  intros Hs. pose proof ln2_pos as H2.
  assert (Hpow : Rpower 10 0 <= Rpower 10 (s / 10))
    by (apply Rle_Rpower; lra).
  rewrite Rpower_O in Hpow by lra.
  apply (Rmult_le_reg_r (ln 2)); [exact H2 | ].
  unfold Rdiv. rewrite Rmult_assoc, Rinv_l by lra.
  rewrite Rmult_1_l, Rmult_1_r. apply ln_monotone; lra.
Qed.

(** In exact arithmetic the capacity is defined, never negative for a
    bandwidth that is not, and grows with both the bandwidth and the SNR. *)
Lemma capacity_monotone_exact (bw1 bw2 s1 s2 : R) :
  0 <= bw1 <= bw2 ->
  s1 <= s2 ->
  exists c1 c2 : R,
    shannon_capacity bw1 s1 = Ok c1 /\
    shannon_capacity bw2 s2 = Ok c2 /\
    0 <= c1 <= c2 /\
    (0 <= s1 -> bw1 * 1e6 <= c1).
Proof.
  intros Hbw Hs. exists (capacity_value bw1 s1), (capacity_value bw2 s2).
  split; [apply shannon_capacity_ok | ].
  split; [apply shannon_capacity_ok | ].
  unfold capacity_value.
  pose proof (log2_snr_monotone s1 s2 Hs) as Hl.
  set (l1 := ln (1 + Rpower 10 (s1 / 10)) / ln 2) in *.
  set (l2 := ln (1 + Rpower 10 (s2 / 10)) / ln 2) in *.
  split; [split | ].
  - apply Rmult_le_pos; lra.
  - apply Rmult_le_compat; lra.
  - intros H0. pose proof (log2_snr_ge_1 s1 H0) as H1. fold l1 in H1.
    rewrite <- (Rmult_1_r (bw1 * 1e6)) at 1.
    apply Rmult_le_compat_l; lra.
Qed.

(** X10.  For an SNR between -150 and 3000 dB, where line 27 neither
    overflows nor vanishes against 1, and a bandwidth of at most [1e100],
    the capacity of lines 27 and 28 is defined, never negative, and grows
    with both the bandwidth and the SNR; at an SNR of 0 dB or more it is at
    least [bw * 1e6], one bit per second per hertz. *)
Theorem capacity_monotone (bw1 bw2 s1 s2 : R) :
  0 <= bw1 <= bw2 ->
  bw2 <= 1e100 ->
  -150 <= s1 ->
  s1 <= s2 ->
  s2 <= 3000 ->
  exists c1 c2 : R,
    shannon_capacity_binary64 bw1 s1 = Ok c1 /\
    shannon_capacity_binary64 bw2 s2 = Ok c2 /\
    shannon_capacity bw1 s1 = Ok c1 /\
    shannon_capacity bw2 s2 = Ok c2 /\
    0 <= c1 <= c2 /\
    (0 <= s1 -> bw1 * 1e6 <= c1).
Proof.
  intros Hbw _ Hlo Hs Hhi.
  destruct (capacity_monotone_exact bw1 bw2 s1 s2 Hbw Hs)
    as (c1 & c2 & H1 & H2 & H12 & Hge).
  exists c1, c2.
  rewrite shannon_capacity_ok in H1, H2.
  injection H1 as <-. injection H2 as <-.
  repeat split; try apply H12; try exact Hge;
    try apply shannon_capacity_ok;
    apply shannon_capacity_binary64_exact; lra.
Qed.

Lemma capacity_monotone_witness :
  exists c1 c2 : R,
    shannon_capacity_binary64 5 10 = Ok c1 /\
    shannon_capacity_binary64 10 15 = Ok c2 /\
    0 <= c1 <= c2 /\
    5 * 1e6 <= c1.
Proof.
  destruct (capacity_monotone 5 10 10 15)
    as (c1 & c2 & H1 & H2 & _ & _ & H12 & Hge); try lra.
  exists c1, c2. repeat split; try assumption; try apply H12.
  apply Hge. lra.
Defined.

Lemma le_div_of_mul_le (a b c : R) : 0 < b -> c * b <= a -> c <= a / b.
Proof.
  intros Hb H. apply (Rmult_le_reg_r b); [exact Hb | ].
  unfold Rdiv. rewrite Rmult_assoc, Rinv_l by lra. lra.
Qed.

Lemma div_lt_of_lt_mul (a b c : R) : 0 < b -> a < c * b -> a / b < c.
Proof.
  intros Hb H. apply (Rmult_lt_reg_r b); [exact Hb | ].
  unfold Rdiv. rewrite Rmult_assoc, Rinv_l by lra. lra.
Qed.

Lemma Ztrunc_ge (z : Z) (x : R) : (0 <= z)%Z -> IZR z <= x -> (z <= Ztrunc x)%Z.
Proof.
  intros Hz Hx. unfold Ztrunc.
  assert (H0 : 0 <= x) by (apply IZR_le in Hz; lra).
  destruct (Rlt_dec x 0) as [Hneg | _]; [lra | ].
  apply Zfloor_lub. exact Hx.
Qed.

Lemma Ztrunc_lt (z : Z) (x : R) : (0 < z)%Z -> x < IZR z -> (Ztrunc x < z)%Z.
Proof.
  intros Hz Hx. unfold Ztrunc.
  destruct (Rlt_dec x 0) as [Hneg | Hpos].
  - unfold Zceil.
    assert (H : (0 <= Zfloor (- x))%Z) by (apply Zfloor_lub; simpl; lra).
    lia.
  - apply lt_IZR. pose proof (Zfloor_bound x) as [Hlo _]. lra.
Qed.

(** X11.  The congestion window of line 40 counts whole packets of
    [pkt_size * 1024 * 8] bits in [capacity_t], clamped: it is 10 as soon as
    [capacity_t] holds ten packets, and 1 as long as it holds fewer than
    two, a negative capacity included. *)
Theorem cwnd_saturates (capacity_t pkt_size : R) :
  0 < pkt_size ->
  (10 * (pkt_size * 1024 * 8) <= capacity_t ->
   cwnd_of capacity_t pkt_size = Ok 10%Z) /\
  (capacity_t < 2 * (pkt_size * 1024 * 8) ->
   cwnd_of capacity_t pkt_size = Ok 1%Z).
Proof.
  intros Hp. assert (Hbits : 0 < pkt_size * 1024 * 8) by lra.
  unfold cwnd_of. rewrite np_div_fin by lra. cbn [py_int bind].
  split; intros H; f_equal.
  - assert (Hge : (10 <= Ztrunc (capacity_t / (pkt_size * 1024 * 8)))%Z).
    { apply Ztrunc_ge; [lia | ]. apply le_div_of_mul_le; [exact Hbits | lra]. }
    lia.
  - assert (Hlt : (Ztrunc (capacity_t / (pkt_size * 1024 * 8)) < 2)%Z).
    { apply Ztrunc_lt; [lia | ]. apply div_lt_of_lt_mul; [exact Hbits | lra]. }
    lia.
Qed.

Lemma cwnd_saturates_witness :
  cwnd_of 1e6 5 = Ok 10%Z /\ cwnd_of 50000 5 = Ok 1%Z.
Proof.
  split.
  - apply (proj1 (cwnd_saturates 1e6 5 ltac:(lra))). lra.
  - apply (proj2 (cwnd_saturates 50000 5 ltac:(lra))). lra.
Defined.

(** * Properties of the script around the function *)

(** ** Means *)

Lemma np_sum_bounds (a b : R) (l : list R) :
  Forall (fun x => a <= x <= b) l ->
  a * INR (length l) <= np_sum l <= b * INR (length l).
Proof.
  induction 1 as [| x l Hx _ IH].
  - simpl. lra.
  - change (np_sum (x :: l)) with (x + np_sum l).
    change (length (x :: l)) with (S (length l)).
    rewrite S_INR. lra.
Qed.

Lemma np_mean_ok (l : list R) :
  l <> [] -> np_mean l = Ok (np_sum l / INR (length l)).
Proof.
  intros Hl. unfold np_mean.
  rewrite np_div_fin; [reflexivity | ].
  apply Rgt_not_eq, lt_0_INR.
  destruct l; [contradiction | simpl; lia].
Qed.

Lemma np_mean_empty : np_mean [] = NonFinite.
Proof.
  unfold np_mean, np_div. simpl.
  destruct (Req_dec_T 0 0) as [_ | Hne]; [ | contradiction].
  reflexivity.
Qed.

Lemma np_mean_bounds (a b : R) (l : list R) :
  l <> [] ->
  Forall (fun x => a <= x <= b) l ->
  exists m : R, np_mean l = Ok m /\ a <= m <= b.
Proof.
  intros Hl Hall. exists (np_sum l / INR (length l)).
  split; [apply np_mean_ok; exact Hl | ].
  assert (Hn : 0 < INR (length l)).
  { apply lt_0_INR. destruct l; [contradiction | simpl; lia]. }
  pose proof (np_sum_bounds a b l Hall) as [Hlo Hhi].
  split.
  - apply le_div_of_mul_le; assumption.
  - apply div_le_of_le_mul; assumption.
Qed.

Lemma map_seq_nonempty {A : Type} (f : nat -> A) (k : nat) :
  (0 < k)%nat -> map f (seq 0 k) <> [].
Proof. intros Hk. destruct k; [lia | discriminate]. Qed.

(** ** Slider values *)

Lemma slider_values_valid (c : controls) :
  slider_values c ->
  valid_config (IZR (bandwidth c)) (IZR (packet_size c))
    (IZR (video_bitrate c)) (frames c) /\
  1e6 <= capacity_value (IZR (bandwidth c)) (IZR (snr c)) /\
  (10 <= Z.to_nat (frames c) <= 200)%nat.
Proof.
  unfold slider_values, slider_range.
  intros ((Hb1 & Hb2) & (Hs1 & Hs2) & (Hp1 & Hp2) & (Hv1 & Hv2) & (Hf1 & Hf2)).
  apply IZR_le in Hb1, Hs1, Hp1, Hv1.
  split; [ | split].
  - unfold valid_config. repeat split; try lra; lia.
  - unfold capacity_value.
    pose proof (log2_snr_ge_1 (IZR (snr c)) Hs1) as Hl.
    set (l := ln (1 + Rpower 10 (IZR (snr c) / 10)) / ln 2) in *.
    nra.
  - lia.
Qed.

(** X12.  For slider values, the congestion window of every frame is 9 or
    10, and it is 10 whenever the packet size slider is at most 9: the
    sliders cannot bring the capacity below ten such packets, and even the
    largest packet fits nine times. *)
Theorem slider_cwnd_is_at_the_top (rng : random_source) (c : controls)
    (i : nat) :
  slider_values c ->
  draws_in_unit rng ->
  exists w : Z,
    cwnd_of
      (capacity_t_at rng
         (capacity_value (IZR (bandwidth c)) (IZR (snr c))) i)
      (IZR (packet_size c)) = Ok w /\
    (9 <= w <= 10)%Z /\
    ((packet_size c <= 9)%Z -> w = 10%Z).
Proof.
  intros Hc Hrng.
  destruct (slider_values_valid c Hc) as (_ & Hcap & _).
  destruct Hc as (_ & _ & (Hp1 & Hp2) & _).
  assert (Hpos : 0 < capacity_value (IZR (bandwidth c)) (IZR (snr c)))
    by lra.
  pose proof (capacity_t_at_bounds rng _ i Hpos Hrng) as Hct.
  set (ct := capacity_t_at rng
               (capacity_value (IZR (bandwidth c)) (IZR (snr c))) i) in *.
  pose proof (IZR_le _ _ Hp1) as Hp1'. pose proof (IZR_le _ _ Hp2) as Hp2'.
  assert (Hbits : 0 < IZR (packet_size c) * 1024 * 8) by lra.
  unfold cwnd_of. rewrite np_div_fin by lra. cbn [py_int bind].
  eexists. split; [reflexivity | ].
  assert (H9 : (9 <= Ztrunc (ct / (IZR (packet_size c) * 1024 * 8)))%Z).
  { apply Ztrunc_ge; [lia | ]. apply le_div_of_mul_le; [exact Hbits | lra]. }
  split; [lia | ].
  intros Hle. apply IZR_le in Hle.
  assert (H10 : (10 <= Ztrunc (ct / (IZR (packet_size c) * 1024 * 8)))%Z).
  { apply Ztrunc_ge; [lia | ]. apply le_div_of_mul_le; [exact Hbits | lra]. }
  lia.
Qed.

Lemma slider_cwnd_is_at_the_top_witness :
  cwnd_of
    (capacity_t_at (constant_draws 0) (capacity_value 1 0) 0) 9 = Ok 10%Z.
Proof.
  destruct (slider_cwnd_is_at_the_top (constant_draws 0)
              (mk_controls 1 0 9 1 10) 0%nat)
    as (w & Hw & _ & H10).
  - unfold slider_values, slider_range. cbn. lia.
  - apply constant_draws_in_unit. lra.
  - cbn [bandwidth snr packet_size] in Hw, H10.
    rewrite Hw. f_equal. apply H10. lia.
Defined.

(** ** Pressing the button *)

Lemma run_simulation_closed (rng : random_source) (c : controls) :
  slider_values c ->
  draws_in_unit rng ->
  let res :=
    closed_results rng (IZR (packet_size c)) (IZR (video_bitrate c))
      (capacity_value (IZR (bandwidth c)) (IZR (snr c)))
      (Z.to_nat (frames c)) in
  exists s : summary,
    run_simulation rng c = Ok (res, s) /\
    simulation_summary res = Ok s.
Proof.
  intros Hc Hrng res.
  destruct (slider_values_valid c Hc) as (Hv & _ & Hk).
  assert (Hpos : (0 < Z.to_nat (frames c))%nat) by lia.
  unfold run_simulation. rewrite simulate_valid by assumption.
  cbn [bind]. fold res.
  unfold simulation_summary, res.
  cbn [closed_results res_bitrate res_psnr res_delay res_energy].
  rewrite !np_mean_ok by (apply map_seq_nonempty; exact Hpos).
  cbn [bind]. eexists. split; reflexivity.
Qed.

(** X13.  For slider values, pressing the button never fails, whatever the
    draws: the function returns, with one record per frame (between 10 and
    200 of them, numbered from 0), and the four means of the summary are
    defined. *)
Theorem run_simulation_succeeds (rng : random_source) (c : controls) :
  slider_values c ->
  draws_in_unit rng ->
  exists (res : results) (s : summary),
    run_simulation rng c = Ok (res, s) /\
    simulate_cross_layer rng
      (IZR (bandwidth c)) (IZR (snr c)) (IZR (packet_size c))
      (IZR (video_bitrate c)) (frames c) = Ok res /\
    res_time res = range (frames c) /\
    Z.of_nat (length (res_bitrate res)) = frames c /\
    Z.of_nat (length (res_psnr res)) = frames c /\
    Z.of_nat (length (res_delay res)) = frames c /\
    Z.of_nat (length (res_energy res)) = frames c /\
    (10 <= length (res_time res) <= 200)%nat.
Proof.
  intros Hc Hrng.
  destruct (run_simulation_closed rng c Hc Hrng) as (s & Hrun & _).
  destruct (slider_values_valid c Hc) as (Hv & _ & Hk).
  eexists. exists s. split; [exact Hrun | ].
  split; [apply simulate_valid; assumption | ].
  cbn [closed_results res_time res_bitrate res_psnr res_delay res_energy].
  rewrite !length_map, !length_seq, Z2Nat.id by lia.
  repeat split; try reflexivity; lia.
Qed.

Lemma run_simulation_succeeds_witness :
  exists (res : results) (s : summary),
    run_simulation (constant_draws (1 / 2)) (mk_controls 10 15 5 8 50) =
      Ok (res, s) /\
    length (res_time res) = 50%nat.
Proof.
  destruct (run_simulation_succeeds (constant_draws (1 / 2))
              (mk_controls 10 15 5 8 50))
    as (res & s & Hrun & _ & Ht & _).
  - unfold slider_values, slider_range. cbn. lia.
  - apply constant_draws_in_unit. lra.
  - exists res, s. split; [exact Hrun | ].
    rewrite Ht. reflexivity.
Defined.

(** X14.  For slider values, whatever the draws, the summary shows an
    average delay of exactly 0, an average bitrate between 0.72 Mbps and the
    bitrate slider, an average PSNR between [10 * log10 0.1] and
    [10 * log10 1.05] dB, and an average energy above 0 and at most
    [1e-5] J. *)
Theorem summary_bounds (rng : random_source) (c : controls) :
  slider_values c ->
  draws_in_unit rng ->
  exists (res : results) (s : summary),
    run_simulation rng c = Ok (res, s) /\
    avg_delay s = 0 /\
    0.72 <= avg_bitrate s <= IZR (video_bitrate c) /\
    10 * log10 0.1 <= avg_psnr s <= 10 * log10 1.05 /\
    0 < avg_energy s <= 1e-5.
Proof.
  intros Hc Hrng.
  destruct (run_simulation_closed rng c Hc Hrng) as (s & Hrun & Hsum).
  destruct (slider_values_valid c Hc) as ((Hbw & Hp & Hb & Hn) & Hcap & Hk).
  assert (Hpos : (0 < Z.to_nat (frames c))%nat) by lia.
  pose proof Hc as (_ & _ & (_ & Hp2) & (Hv1 & _) & _).
  apply IZR_le in Hp2, Hv1.
  set (C := capacity_value (IZR (bandwidth c)) (IZR (snr c))) in *.
  assert (HC : 0 < C) by lra.
  eexists. exists s. split; [exact Hrun | ].
  unfold simulation_summary in Hsum.
  cbn [closed_results res_bitrate res_psnr res_delay res_energy] in Hsum.
  destruct (np_mean_bounds 0.72 (IZR (video_bitrate c))
              (map (fun i => adaptive_at rng (IZR (video_bitrate c)) C i / 1e6)
                 (seq 0 (Z.to_nat (frames c)))))
    as (mb & Hmb & Hbb).
  { apply map_seq_nonempty; exact Hpos. }
  { apply Forall_map_seq. intros i _.
    pose proof (capacity_t_at_bounds rng C i HC Hrng) as Hct.
    pose proof (adaptive_le_target (IZR (video_bitrate c))
                  (capacity_t_at rng C i)) as Hle.
    fold (adaptive_at rng (IZR (video_bitrate c)) C i) in Hle.
    assert (Hge : 0.72 * 1e6 <= adaptive_at rng (IZR (video_bitrate c)) C i).
    { unfold adaptive_at, adaptive_bitrate_of, py_min.
      destruct (Rlt_dec _ _); lra. }
    lra. }
  destruct (np_mean_bounds (10 * log10 0.1) (10 * log10 1.05)
              (map (psnr_at rng (IZR (video_bitrate c)) C)
                 (seq 0 (Z.to_nat (frames c)))))
    as (mp & Hmp & Hpb).
  { apply map_seq_nonempty; exact Hpos. }
  { apply Forall_map_seq. intros i _. apply psnr_at_bounds; assumption. }
  destruct (np_mean_bounds 0 0
              (map (delay_at rng (IZR (video_bitrate c)) C)
                 (seq 0 (Z.to_nat (frames c)))))
    as (md & Hmd & Hdb).
  { apply map_seq_nonempty; exact Hpos. }
  { apply Forall_map_seq. intros i _. unfold delay_at.
    rewrite queue_after_zero by assumption.
    unfold Rdiv. rewrite Rmult_0_l. lra. }
  destruct (np_mean_bounds (2 / 3 * (IZR (packet_size c) / C)) 1e-5
              (map (energy_at rng (IZR (packet_size c)) C)
                 (seq 0 (Z.to_nat (frames c)))))
    as (me & Hme & Heb).
  { apply map_seq_nonempty; exact Hpos. }
  { apply Forall_map_seq. intros i _.
    pose proof (capacity_t_at_bounds rng C i HC Hrng) as Hct.
    set (ct := capacity_t_at rng C i) in *.
    assert (Hct0 : 0 < ct) by lra.
    set (r := IZR (packet_size c) / C).
    assert (Hr : r * C = IZR (packet_size c)).
    { unfold r, Rdiv. rewrite Rmult_assoc, Rinv_l by lra. lra. }
    assert (Hr0 : 0 < r) by (apply Rdiv_lt_0_compat; lra).
    unfold energy_at, power_tx. fold ct.
    assert (He : 0.1 * (IZR (packet_size c) * 8 / ct) =
                 0.8 * IZR (packet_size c) / ct)
      by (unfold Rdiv; lra).
    rewrite He. split.
    - apply le_div_of_mul_le; [exact Hct0 | nra].
    - apply div_le_of_le_mul; [exact Hct0 | nra]. }
  rewrite Hmb, Hmp, Hmd, Hme in Hsum. cbn [bind] in Hsum.
  injection Hsum as <-.
  cbn [avg_delay avg_bitrate avg_psnr avg_energy].
  assert (Hlow : 0 < 2 / 3 * (IZR (packet_size c) / C)).
  { apply Rmult_lt_0_compat; [lra | apply Rdiv_lt_0_compat; lra]. }
  repeat split; lra.
Qed.

Lemma summary_bounds_witness :
  exists (res : results) (s : summary),
    run_simulation (constant_draws (1 / 2)) (mk_controls 10 15 5 8 50) =
      Ok (res, s) /\
    avg_delay s = 0 /\
    avg_bitrate s <= 8.
Proof.
  destruct (summary_bounds (constant_draws (1 / 2))
              (mk_controls 10 15 5 8 50))
    as (res & s & Hrun & Hd & Hb & _).
  - unfold slider_values, slider_range. cbn. lia.
  - apply constant_draws_in_unit. lra.
  - exists res, s. split; [exact Hrun | ]. split; [exact Hd | ].
    cbn [video_bitrate] in Hb. lra.
Defined.

(** X15.  The summary relies on the lower bound of the frames slider: on a
    frame count of zero or less the function returns empty series, and the
    first mean of the summary, [np.mean] of an empty list, is [nan]. *)
Theorem summary_of_no_frames (rng : random_source) (c : controls) :
  (frames c <= 0)%Z ->
  simulate_cross_layer rng
    (IZR (bandwidth c)) (IZR (snr c)) (IZR (packet_size c))
    (IZR (video_bitrate c)) (frames c) = Ok empty_results /\
  np_mean (res_bitrate empty_results) = NonFinite /\
  run_simulation rng c = NonFinite.
Proof.
  intros Hn.
  assert (H : simulate_cross_layer rng
                (IZR (bandwidth c)) (IZR (snr c)) (IZR (packet_size c))
                (IZR (video_bitrate c)) (frames c) = Ok empty_results).
  { unfold simulate_cross_layer. rewrite run_frames_unfold.
    rewrite (range_nonpos _ Hn). reflexivity. }
  split; [exact H | ].
  split; [apply np_mean_empty | ].
  unfold run_simulation. rewrite H. cbn [bind].
  unfold simulation_summary. cbn [empty_results res_bitrate].
  rewrite np_mean_empty. reflexivity.
Qed.

Lemma summary_of_no_frames_witness :
  run_simulation (constant_draws (1 / 2)) (mk_controls 10 15 5 8 0) =
  NonFinite.
Proof.
  apply (summary_of_no_frames (constant_draws (1 / 2))
           (mk_controls 10 15 5 8 0)).
  cbn. lia.
Defined.
